(** * A single-ridge landscape evolution model (ridge_model.py)

    The driver script composes three Landlab components (LinearDiffuser,
    FlowAccumulator with D8 routing, FastscapeEroder) with an uplift term and
    an erosion/deposition ledger over a raster grid.  Node fields are numpy
    arrays indexed by node id; they are embedded as lists of rationals. *)

From Stdlib Require Import QArith Qminmax Qabs List Arith Bool Lia Lqa.
From Stdlib Require Import Permutation Sorted.
Import ListNotations.

Open Scope Q_scope.

(** ** Node arrays *)

Definition array := list Q.

(** Reading [a[v]]. *)
Definition at_ (a : array) (v : nat) : Q := nth v a 0.

Fixpoint map2 {A B C : Type} (f : A -> B -> C) (l1 : list A) (l2 : list B) : list C :=
  match l1, l2 with
  | x :: l1', y :: l2' => f x y :: map2 f l1' l2'
  | _, _ => []
  end.

(** [a -= b], [a += b] and [a * c] on whole arrays. *)
Definition isub (a b : array) : array := map2 Qminus a b.
Definition iadd (a b : array) : array := map2 Qplus a b.
Definition scale (a : array) (c : Q) : array := map (fun x => x * c) a.

(** Writing one slot, [a[i] = x]; every index the driver writes is a node id
    of the grid, so the out-of-range case never arises and is left inert. *)
Fixpoint upd {A : Type} (i : nat) (x : A) (l : list A) : list A :=
  match l, i with
  | [], _ => []
  | _ :: l', O => x :: l'
  | y :: l', S i' => y :: upd i' x l'
  end.

(** Pointwise agreement of two arrays as rational numbers. *)
Definition arr_eq (a b : array) : Prop :=
  length a = length b /\ forall v, at_ a v == at_ b v.

(** Sum of [f] over a list of indices (node ids, or loop counters). *)
Definition sum_steps (f : nat -> Q) (l : list nat) : Q :=
  fold_right (fun i acc => f i + acc) 0 l.

(** ** Grid and boundary status *)

Inductive NodeStatus : Type :=
| BC_NODE_IS_CORE
| BC_NODE_IS_FIXED_VALUE
| BC_NODE_IS_CLOSED.

Definition status_eqb (s t : NodeStatus) : bool :=
  match s, t with
  | BC_NODE_IS_CORE, BC_NODE_IS_CORE => true
  | BC_NODE_IS_FIXED_VALUE, BC_NODE_IS_FIXED_VALUE => true
  | BC_NODE_IS_CLOSED, BC_NODE_IS_CLOSED => true
  | _, _ => false
  end.

(** The raster grid read from the DEM: its shape, spacing and the status
    array.  Nodes are numbered row by row from the lower-left corner. *)
Record RasterModelGrid : Type := {
  number_of_node_rows : nat;
  number_of_node_columns : nat;
  grid_dx : Q;
  status_at_node : list NodeStatus
}.

Definition number_of_nodes (mg : RasterModelGrid) : nat :=
  (number_of_node_rows mg * number_of_node_columns mg)%nat.

Definition status (mg : RasterModelGrid) (v : nat) : NodeStatus :=
  nth v (status_at_node mg) BC_NODE_IS_CLOSED.

Definition is_core (mg : RasterModelGrid) (v : nat) : bool :=
  status_eqb (status mg v) BC_NODE_IS_CORE.

(** [mg.core_nodes]: ids of the nodes whose status is CORE, ascending. *)
Definition core_nodes (mg : RasterModelGrid) : list nat :=
  filter (is_core mg) (seq 0 (length (status_at_node mg))).

(** Edge node sets of a raster; each one runs corner to corner. *)
Definition nodes_at_bottom_edge (mg : RasterModelGrid) : list nat :=
  seq 0 (number_of_node_columns mg).

Definition nodes_at_top_edge (mg : RasterModelGrid) : list nat :=
  seq ((number_of_node_rows mg - 1) * number_of_node_columns mg)
      (number_of_node_columns mg).

Definition nodes_at_left_edge (mg : RasterModelGrid) : list nat :=
  map (fun r => (r * number_of_node_columns mg)%nat)
      (seq 0 (number_of_node_rows mg)).

Definition nodes_at_right_edge (mg : RasterModelGrid) : list nat :=
  map (fun r => (r * number_of_node_columns mg + (number_of_node_columns mg - 1))%nat)
      (seq 0 (number_of_node_rows mg)).

(** [status[edge] = s]: indexed assignment over a list of node ids. *)
Definition assign_at {A : Type} (idx : list nat) (x : A) (l : list A) : list A :=
  fold_left (fun acc i => upd i x acc) idx l.

Definition with_status (mg : RasterModelGrid) (st : list NodeStatus) : RasterModelGrid :=
  {| number_of_node_rows := number_of_node_rows mg;
     number_of_node_columns := number_of_node_columns mg;
     grid_dx := grid_dx mg;
     status_at_node := st |}.

(** Lines 60-63: top and bottom edges FIXED_VALUE first, then left and right
    edges CLOSED. *)
Definition set_boundary_status (mg : RasterModelGrid) : RasterModelGrid :=
  let st1 :=
    fold_left (fun st edge => assign_at edge BC_NODE_IS_FIXED_VALUE st)
              [nodes_at_top_edge mg; nodes_at_bottom_edge mg]
              (status_at_node mg) in
  let st2 :=
    fold_left (fun st edge => assign_at edge BC_NODE_IS_CLOSED st)
              [nodes_at_left_edge mg; nodes_at_right_edge mg]
              st1 in
  with_status mg st2.

(** The four corner node ids of the raster. *)
Definition corner_nodes (mg : RasterModelGrid) : list nat :=
  [ 0%nat;
    (number_of_node_columns mg - 1)%nat;
    ((number_of_node_rows mg - 1) * number_of_node_columns mg)%nat;
    (number_of_node_rows mg * number_of_node_columns mg - 1)%nat ].

(** [z[core_nodes] += u]: the ids in [mg.core_nodes] are distinct, so the
    fancy-indexed in-place addition adds [u] once at each listed id. *)
Definition add_at (idx : list nat) (u : Q) (a : array) : array :=
  fold_left (fun acc i => upd i (at_ acc i + u) acc) idx a.

(** ** The Landlab components, as the driver uses them

    [FlowAccumulator] writes the flow fields of the grid; the diffuser and the
    eroder rewrite the elevation array in place.  None of them touches the
    two ledger fields the script adds ([erode_dep], [t_erode_dep]), which the
    signatures below make explicit. *)

Record FlowField : Type := {
  flow__receiver_node : list nat;
  drainage_area : array;
  flow__upstream_node_order : list nat
}.

Record Components : Type := {
  (* LinearDiffuser(mg, linear_diffusivity=D).run_one_step(dt) *)
  LinearDiffuser : RasterModelGrid -> Q -> Q -> array -> array;
  (* FlowAccumulator(mg, flow_director='D8').run_one_step() *)
  FlowAccumulator : RasterModelGrid -> array -> FlowField;
  (* FastscapeEroder(mg, K_sp, m_sp, n_sp, threshold_sp).run_one_step(dt) *)
  FastscapeEroder :
    RasterModelGrid -> Q -> Q -> Q -> Q -> Q -> FlowField -> array -> array
}.

(** Sections C-E of the script: the user settings and what is derived from
    them. *)
Record Settings : Type := {
  D : Q;
  Ksp : Q;
  threshold : Q;
  uplift_rate : Q;
  total_t : nat;
  dt : nat
}.

Definition dtQ (s : Settings) : Q := inject_Z (Z.of_nat (dt s)).

(** [nt = int(total_t // dt)]; the division raises when [dt] is zero. *)
Definition nt (s : Settings) : option nat :=
  if (dt s =? 0)%nat then None else Some (total_t s / dt s)%nat.

Definition uplift_per_step (s : Settings) : Q := uplift_rate s * dtQ s.

(** The settings as the script has them. *)
Definition script_settings : Settings :=
  {| D := 1; Ksp := 0; threshold := 0; uplift_rate := 12 # 10000;
     total_t := 10000; dt := 10 |}.

(** The statements of the loop body, for the record of what ran in which
    order. *)
Inductive Call : Type :=
| LedgerOpen        (* lines 137-138 *)
| Diffuse           (* lin_diffuse.run_one_step(dt) *)
| Route             (* fr.run_one_step() *)
| Erode             (* erode.run_one_step(dt) *)
| LedgerClose       (* lines 143-144 *)
| Uplift.           (* line 145 *)

Definition call_eqb (a b : Call) : bool :=
  match a, b with
  | LedgerOpen, LedgerOpen | Diffuse, Diffuse | Route, Route
  | Erode, Erode | LedgerClose, LedgerClose | Uplift, Uplift => true
  | _, _ => false
  end.

(** The fields of the grid the loop reads and writes, with the history of
    the calls made so far. *)
Record Model : Type := {
  topographic__elevation : array;
  erode_dep : array;
  t_erode_dep : array;
  flow : FlowField;
  history : list Call
}.

Definition empty_flow : FlowField :=
  {| flow__receiver_node := []; drainage_area := [];
     flow__upstream_node_order := [] |}.

(** The model right after section E: the two ledgers are [add_zeros]
    fields. *)
Definition initial_model (z : array) : Model :=
  {| topographic__elevation := z;
     erode_dep := map (fun _ => 0) z;
     t_erode_dep := map (fun _ => 0) z;
     flow := empty_flow;
     history := [] |}.

Section Driver.

Variable C : Components.
Variable mg : RasterModelGrid.
Variable s : Settings.

(* erode_dep -= erode_dep ; erode_dep += topographic__elevation *)
Definition ledger_open (m : Model) : Model :=
  {| topographic__elevation := topographic__elevation m;
     erode_dep := iadd (isub (erode_dep m) (erode_dep m))
                       (topographic__elevation m);
     t_erode_dep := t_erode_dep m;
     flow := flow m;
     history := history m ++ [LedgerOpen] |}.

Definition lin_diffuse_run_one_step (m : Model) : Model :=
  {| topographic__elevation :=
       LinearDiffuser C mg (D s) (dtQ s) (topographic__elevation m);
     erode_dep := erode_dep m;
     t_erode_dep := t_erode_dep m;
     flow := flow m;
     history := history m ++ [Diffuse] |}.

Definition fr_run_one_step (m : Model) : Model :=
  {| topographic__elevation := topographic__elevation m;
     erode_dep := erode_dep m;
     t_erode_dep := t_erode_dep m;
     flow := FlowAccumulator C mg (topographic__elevation m);
     history := history m ++ [Route] |}.

Definition erode_run_one_step (m : Model) : Model :=
  {| topographic__elevation :=
       FastscapeEroder C mg (Ksp s) (1 # 2) 1 (threshold s) (dtQ s)
                       (flow m) (topographic__elevation m);
     erode_dep := erode_dep m;
     t_erode_dep := t_erode_dep m;
     flow := flow m;
     history := history m ++ [Erode] |}.

(* erode_dep -= topographic__elevation ; t_erode_dep += erode_dep *)
Definition ledger_close (m : Model) : Model :=
  let ed := isub (erode_dep m) (topographic__elevation m) in
  {| topographic__elevation := topographic__elevation m;
     erode_dep := ed;
     t_erode_dep := iadd (t_erode_dep m) ed;
     flow := flow m;
     history := history m ++ [LedgerClose] |}.

(* topographic__elevation[mg.core_nodes] += uplift_per_step *)
Definition uplift (m : Model) : Model :=
  {| topographic__elevation :=
       add_at (core_nodes mg) (uplift_per_step s) (topographic__elevation m);
     erode_dep := erode_dep m;
     t_erode_dep := t_erode_dep m;
     flow := flow m;
     history := history m ++ [Uplift] |}.

(** Lines 136-145, one pass of the loop for counter [i].  The progress
    message printed every 200 passes does not touch the grid and is left
    out. *)
Definition loop_body (i : nat) (m : Model) : Model :=
  let m := if (900 <? i)%nat then ledger_open m else m in
  let m := lin_diffuse_run_one_step m in
  let m := fr_run_one_step m in
  let m := erode_run_one_step m in
  let m := if (900 <? i)%nat then ledger_close m else m in
  uplift m.

(** The first [k] passes of [for i in range(...)]. *)
Definition run_steps (k : nat) (m : Model) : Model :=
  fold_left (fun m i => loop_body i m) (seq 0 k) m.

(* mg.at_node['t_erode_dep'] -= mg.at_node['t_erode_dep'] *)
Definition reset_total (m : Model) : Model :=
  {| topographic__elevation := topographic__elevation m;
     erode_dep := erode_dep m;
     t_erode_dep := isub (t_erode_dep m) (t_erode_dep m);
     flow := flow m;
     history := history m |}.

(* mg.at_node['t_erode_dep'] = mg.at_node['t_erode_dep'] * 0.001 *)
Definition scale_total (m : Model) : Model :=
  {| topographic__elevation := topographic__elevation m;
     erode_dep := erode_dep m;
     t_erode_dep := scale (t_erode_dep m) (1 # 1000);
     flow := flow m;
     history := history m |}.

(** Lines 134-148 for a given loop bound [n] (the script's [nt]): the loop
    is [for i in range(nt+1)]. *)
Definition simulation (n : nat) (m : Model) : Model :=
  scale_total (run_steps (n + 1) (reset_total m)).

(** Section G as a whole, with [nt] derived from the settings. *)
Definition run_model (m : Model) : option Model :=
  match nt s with
  | Some n => Some (simulation n m)
  | None => None
  end.

(** The elevation alone: what one pass does to it before the uplift, and
    the elevation at the start of pass [i]. *)
Definition after_processes (z : array) : array :=
  let z1 := LinearDiffuser C mg (D s) (dtQ s) z in
  FastscapeEroder C mg (Ksp s) (1 # 2) 1 (threshold s) (dtQ s)
                  (FlowAccumulator C mg z1) z1.

Definition next_elevation (z : array) : array :=
  add_at (core_nodes mg) (uplift_per_step s) (after_processes z).

Fixpoint elevation_at_pass (i : nat) (z0 : array) : array :=
  match i with
  | O => z0
  | S i' => next_elevation (elevation_at_pass i' z0)
  end.

End Driver.

(** ** The numerical core the components stand for

    Landlab itself is not part of the script.  The three solvers below follow
    the design text of the specification (sections 4.2 to 4.4). *)

Definition Qlt_bool (x y : Q) : bool := negb (Qle_bool y x).

(** *** FlowRouter *)

(** The up-to-8 lattice neighbours of node [v], in ascending node id.
    Offsets 0, 1, 2 stand for -1, 0, +1. *)
Definition neighbors (mg : RasterModelGrid) (v : nat) : list nat :=
  let nr := number_of_node_rows mg in
  let nc := number_of_node_columns mg in
  let r := (v / nc)%nat in
  let c := (v mod nc)%nat in
  flat_map (fun dr =>
    flat_map (fun dc =>
      if ((dr =? 1) && (dc =? 1))%nat then []
      else if ((1 <=? r + dr) && (r + dr <=? nr)
               && (1 <=? c + dc) && (c + dc <=? nc))%nat
           then [((r + dr - 1) * nc + (c + dc - 1))%nat]
           else [])
      [0; 1; 2]%nat)
    [0; 1; 2]%nat.

(** CLOSED nodes are not traversable: they are never a candidate receiver. *)
Definition valid_neighbors (mg : RasterModelGrid) (v : nat) : list nat :=
  filter (fun u => negb (status_eqb (status mg u) BC_NODE_IS_CLOSED))
         (neighbors mg v).

(** [u] is a better receiver than [w]: lower, or as low with a smaller id. *)
Definition better (z : array) (u w : nat) : bool :=
  Qlt_bool (at_ z u) (at_ z w)
  || (Qeq_bool (at_ z u) (at_ z w) && (u <? w)%nat).

Fixpoint lowest (z : array) (cands : list nat) : option nat :=
  match cands with
  | [] => None
  | u :: rest =>
      match lowest z rest with
      | None => Some u
      | Some w => if better z w u then Some w else Some u
      end
  end.

(** Modelled from the spec: the receiver rule of FlowRouter.route (Landlab's
    D8 flow director is not in the script): the lowest valid neighbour when
    it is strictly lower than the node, the node itself otherwise; boundary
    nodes are their own receiver. *)
Definition receiver_of (mg : RasterModelGrid) (z : array) (v : nat) : nat :=
  if is_core mg v then
    match lowest z (valid_neighbors mg v) with
    | Some u => if Qlt_bool (at_ z u) (at_ z v) then u else v
    | None => v
    end
  else v.

(** [u] comes no later than [w] in decreasing elevation, ties by node id. *)
Definition precedes (z : array) (u w : nat) : bool :=
  Qlt_bool (at_ z w) (at_ z u)
  || (Qeq_bool (at_ z u) (at_ z w) && (u <=? w)%nat).

Fixpoint insert_by (z : array) (u : nat) (l : list nat) : list nat :=
  match l with
  | [] => [u]
  | w :: l' => if precedes z u w then u :: l else w :: insert_by z u l'
  end.

Definition sort_decreasing (z : array) (nodes : list nat) : list nat :=
  fold_right (insert_by z) [] nodes.

(** The nodes that take part in the accumulation: all but the CLOSED ones. *)
Definition open_nodes (mg : RasterModelGrid) : list nat :=
  filter (fun u => negb (status_eqb (status mg u) BC_NODE_IS_CLOSED))
         (seq 0 (number_of_nodes mg)).

(** Each open node starts with its own cell, [dx * dx]; CLOSED nodes carry
    no area. *)
Definition cell_area (mg : RasterModelGrid) (v : nat) : Q :=
  if status_eqb (status mg v) BC_NODE_IS_CLOSED then 0
  else grid_dx mg * grid_dx mg.

Definition own_areas (mg : RasterModelGrid) : array :=
  map (cell_area mg) (seq 0 (number_of_nodes mg)).

Definition receiver (rcv : list nat) (v : nat) : nat := nth v rcv v.

(** One node hands its accumulated area to its receiver. *)
Definition pass_down (rcv : list nat) (acc : array) (v : nat) : array :=
  let r := receiver rcv v in
  if (r =? v)%nat then acc else upd r (at_ acc r + at_ acc v) acc.

Definition accumulate (rcv : list nat) (order : list nat) (a0 : array) : array :=
  fold_left (pass_down rcv) order a0.

(** Modelled from the spec: FlowRouter.route (Landlab's FlowAccumulator is
    not in the script): receivers by the rule above, then drainage area by
    one pass over the nodes in decreasing elevation. *)
Definition FlowRouter_route (mg : RasterModelGrid) (z : array) : FlowField :=
  let rcv := map (receiver_of mg z) (seq 0 (number_of_nodes mg)) in
  let order := sort_decreasing z (open_nodes mg) in
  {| flow__receiver_node := rcv;
     drainage_area := accumulate rcv order (own_areas mg);
     flow__upstream_node_order := order |}.

(** Sum of an array over a list of node ids. *)
Definition sum_over (a : array) (ids : list nat) : Q :=
  fold_right (fun v acc => at_ a v + acc) 0 ids.

(** Outlets: the nodes that are their own receiver. *)
Definition outlets (mg : RasterModelGrid) (ff : FlowField) : list nat :=
  filter (fun v => (receiver (flow__receiver_node ff) v =? v)%nat)
         (seq 0 (number_of_nodes mg)).

Definition total_domain_area (mg : RasterModelGrid) : Q :=
  sum_over (own_areas mg) (seq 0 (number_of_nodes mg)).

(** Following the receiver [k] times. *)
Fixpoint downstream (rcv : list nat) (k : nat) (v : nat) : nat :=
  match k with
  | O => v
  | S k' => downstream rcv k' (receiver rcv v)
  end.

(** *** FluvialSolver *)

(** Real exponents and the diagonal link length have no rational value in
    general; the solver takes them from a kernel, together with the
    per-node root finder used when the slope exponent is not 1. *)
Record RealKernel : Type := {
  rpow : Q -> Q -> Q;                       (* x ^ y *)
  sqrt2 : Q;
  implicit_root : Q -> Q -> Q -> Q -> Q     (* n, c, z_old, z_r *)
}.

(** Length of the link from [v] to its receiver [r]: [dx] along a row or a
    column, [sqrt2 * dx] along a diagonal. *)
Definition flow_path_length (R : RealKernel) (mg : RasterModelGrid) (v r : nat) : Q :=
  let nc := number_of_node_columns mg in
  if ((v / nc =? r / nc) || (v mod nc =? r mod nc))%nat
  then grid_dx mg
  else sqrt2 R * grid_dx mg.

(** Slope toward the receiver, clamped at zero. *)
Definition slope (zv zr L : Q) : Q := Qmax 0 ((zv - zr) / L).

Definition stream_power (R : RealKernel) (K m n A S : Q) : Q :=
  K * rpow R A m * rpow R S n.

(** The root of [x = z_old - dt K A^m ((x - z_r) / L)^n]: closed form for
    [n = 1], the kernel's iteration otherwise. *)
Definition implicit_solution (R : RealKernel) (K m n dt A L zold zr : Q) : Q :=
  let c := dt * K * rpow R A m / L in
  if Qeq_bool n 1 then (zold + c * zr) / (1 + c)
  else implicit_root R n c zold zr.

(** The stream power the solver computes at [v], given the elevations
    [znew] already settled downstream. *)
Definition node_stream_power (R : RealKernel) (mg : RasterModelGrid)
    (K m n : Q) (ff : FlowField) (z znew : array) (v : nat) : Q :=
  let r := receiver (flow__receiver_node ff) v in
  stream_power R K m n (at_ (drainage_area ff) v)
    (slope (at_ z v) (at_ znew r) (flow_path_length R mg v r)).

Definition erode_node (R : RealKernel) (mg : RasterModelGrid)
    (K m n thr dt : Q) (ff : FlowField) (z : array)
    (znew : array) (v : nat) : array :=
  let r := receiver (flow__receiver_node ff) v in
  if is_core mg v && negb (r =? v)%nat then
    if Qle_bool (node_stream_power R mg K m n ff z znew v) thr then znew
    else
      let zr := at_ znew r in
      upd v (Qmax zr (implicit_solution R K m n dt
                        (at_ (drainage_area ff) v)
                        (flow_path_length R mg v r) (at_ z v) zr))
          znew
  else znew.

(** Modelled from the spec: FluvialSolver.step (Landlab's FastscapeEroder is
    not in the script): one sweep from the outlets upstream, the reverse of
    the accumulation order, each node solved against the new elevation of
    its receiver. *)
Definition FluvialSolver_step (R : RealKernel) (mg : RasterModelGrid)
    (K m n thr dt : Q) (ff : FlowField) (z : array) : array :=
  fold_left (erode_node R mg K m n thr dt ff z)
            (rev (flow__upstream_node_order ff)) z.

(** The elevation deltas the step reports. *)
Definition FluvialSolver_deltas (R : RealKernel) (mg : RasterModelGrid)
    (K m n thr dt : Q) (ff : FlowField) (z : array) : array :=
  isub (FluvialSolver_step R mg K m n thr dt ff z) z.

(** *** DiffusionSolver *)

(** One row [a x_(j-1) + b x_j + c x_(j+1) = d] of a tridiagonal system. *)
Definition trirow : Type := (Q * Q * Q * Q)%type.

(** Coupling of a CORE node to the neighbour on one side: none across a
    CLOSED node or the end of the line (zero flux), [r] otherwise. *)
Definition coupling (r : Q) (nb : option NodeStatus) : Q :=
  match nb with
  | Some BC_NODE_IS_CLOSED | None => 0
  | Some _ => r
  end.

Definition next_status (rest : list (NodeStatus * Q)) : option NodeStatus :=
  match rest with
  | [] => None
  | (s', _) :: _ => Some s'
  end.

(** The backward-time system along one lattice line: boundary rows are
    pinned to the old elevation, CORE rows carry the discrete Laplacian. *)
Fixpoint assemble (r : Q) (prev : option NodeStatus)
    (line : list (NodeStatus * Q)) : list trirow :=
  match line with
  | [] => []
  | (s, zj) :: rest =>
      let row :=
        match s with
        | BC_NODE_IS_CORE =>
            let ka := coupling r prev in
            let kc := coupling r (next_status rest) in
            (- ka, 1 + ka + kc, - kc, zj)
        | _ => (0, 1, 0, zj)
        end in
      row :: assemble r (Some s) rest
  end.

(** Tridiagonal direct solve: forward elimination, then back substitution.
    Every quotient is kept in lowest terms. *)
Fixpoint eliminate (prev : Q * Q) (rows : list trirow) : list (Q * Q) :=
  match rows with
  | [] => []
  | (a, b, c, d) :: rest =>
      let piv := b - a * fst prev in
      let cd := (Qred (c / piv), Qred ((d - a * snd prev) / piv)) in
      cd :: eliminate cd rest
  end.

Fixpoint back_substitute (cds : list (Q * Q)) : list Q :=
  match cds with
  | [] => []
  | (c', d') :: rest =>
      let xs := back_substitute rest in
      Qred (d' - c' * hd 0 xs) :: xs
  end.

Definition tridiagonal_solve (rows : list trirow) : list Q :=
  back_substitute (eliminate (0, 0) rows).

(** New elevations along a line: the solution at CORE nodes, the old value
    elsewhere. *)
Definition solve_line (r : Q) (line : list (NodeStatus * Q)) : list Q :=
  map2 (fun sz x =>
          match fst sz with
          | BC_NODE_IS_CORE => x
          | _ => snd sz
          end)
       line (tridiagonal_solve (assemble r None line)).

(** Writing the values [xs] back at the node ids [ids]. *)
Fixpoint scatter (ids : list nat) (xs : list Q) (z : array) : array :=
  match ids, xs with
  | v :: ids', x :: xs' => scatter ids' xs' (upd v x z)
  | _, _ => z
  end.

Definition diffuse_line (mg : RasterModelGrid) (r : Q) (z : array)
    (ids : list nat) : array :=
  scatter ids (solve_line r (map (fun v => (status mg v, at_ z v)) ids)) z.

Definition grid_rows (mg : RasterModelGrid) : list (list nat) :=
  map (fun r => map (fun c => (r * number_of_node_columns mg + c)%nat)
                    (seq 0 (number_of_node_columns mg)))
      (seq 0 (number_of_node_rows mg)).

Definition grid_columns (mg : RasterModelGrid) : list (list nat) :=
  map (fun c => map (fun r => (r * number_of_node_columns mg + c)%nat)
                    (seq 0 (number_of_node_rows mg)))
      (seq 0 (number_of_node_columns mg)).

(** Modelled from the spec: DiffusionSolver.step (Landlab's LinearDiffuser is
    not in the script): an implicit solve along every lattice row, then
    along every lattice column, with [r = D dt / dx^2]. *)
Definition DiffusionSolver_step (mg : RasterModelGrid) (Dc dtc : Q)
    (z : array) : array :=
  let r := Dc * dtc / (grid_dx mg * grid_dx mg) in
  fold_left (diffuse_line mg r) (grid_columns mg)
            (fold_left (diffuse_line mg r) (grid_rows mg) z).

Fixpoint iterate {A : Type} (k : nat) (f : A -> A) (x : A) : A :=
  match k with
  | O => x
  | S k' => iterate k' f (f x)
  end.

(** A field is flat when every node has the same elevation. *)
Definition flat (h : Q) (z : array) : Prop :=
  forall v, (v < length z)%nat -> at_ z v == h.

(** The three solvers as components of the driver. *)
Definition reference_components (R : RealKernel) : Components :=
  {| LinearDiffuser := DiffusionSolver_step;
     FlowAccumulator := FlowRouter_route;
     FastscapeEroder := FluvialSolver_step R |}.

(** Number of nodes strictly below [v]; it drops along every flow link. *)
Definition below (mg : RasterModelGrid) (z : array) (v : nat) : nat :=
  length (filter (fun u => Qlt_bool (at_ z u) (at_ z v))
                 (seq 0 (number_of_nodes mg))).

(** A node still holds area of its own while it waits in the accumulation
    order or when it is an outlet. *)
Definition holds_area (rcv : list nat) (todo : list nat) (v : nat) : bool :=
  (receiver rcv v =? v)%nat || existsb (Nat.eqb v) todo.

Definition held_area (rcv : list nat) (todo : list nat) (acc : array)
    (n : nat) : Q :=
  sum_steps (fun v => if holds_area rcv todo v then at_ acc v else 0) (seq 0 n).

(** No node of the list is higher than one listed before it. *)
Definition descending (z : array) (l : list nat) : Prop :=
  StronglySorted (fun u w => at_ z w <= at_ z u) l.

(** ** Vocabulary of the statements about the driver *)

(** The passes of a run with loop bound [n] that fall in the ledger's
    window: the counters [i] of [range(n+1)] with [i > 900]. *)
Definition window (n : nat) : list nat :=
  filter (fun i => (900 <? i)%nat) (seq 0 (n + 1)).

(** Elevation of node [v] before the diffusion and fluvial updates of pass
    [i] minus its elevation after them (the uplift of the pass comes later
    and is not part of it). *)
Definition step_change (C : Components) (mg : RasterModelGrid) (s : Settings)
    (z0 : array) (i v : nat) : Q :=
  at_ (elevation_at_pass C mg s i z0) v
  - at_ (after_processes C mg s (elevation_at_pass C mg s i z0)) v.

(** What pass [i] of the loop calls, in order. *)
Definition pass_calls (i : nat) : list Call :=
  (if (900 <? i)%nat then [LedgerOpen] else [])
  ++ [Diffuse; Route; Erode]
  ++ (if (900 <? i)%nat then [LedgerClose] else [])
  ++ [Uplift].

(** The per-step sequence as the design text words it: routing, diffusion,
    fluvial step, ledger record inside the window, uplift. *)
Definition spec_pass_calls (i : nat) : list Call :=
  [Route; Diffuse; Erode]
  ++ (if (900 <? i)%nat then [LedgerClose] else [])
  ++ [Uplift].

(** Position of the first occurrence of a call in a list of calls. *)
Fixpoint first_index (a : Call) (l : list Call) : option nat :=
  match l with
  | [] => None
  | c :: l' => if call_eqb c a then Some 0%nat
               else option_map S (first_index a l')
  end.

(** [a] is called, and before any call of [b]. *)
Definition runs_before (a b : Call) (l : list Call) : bool :=
  match first_index a l, first_index b l with
  | Some i, Some j => (i <? j)%nat
  | Some _, None => true
  | None, _ => false
  end.

(** The rate map the script reports at node [v], and the average the design
    text describes: the windowed changes divided by the simulated duration
    of the window, [W * dt] for a window of [W] passes. *)
Definition reported_rate (C : Components) (mg : RasterModelGrid) (s : Settings)
    (n : nat) (m : Model) (v : nat) : Q :=
  at_ (t_erode_dep (simulation C mg s n m)) v.

Definition window_duration (s : Settings) (n : nat) : Q :=
  inject_Z (Z.of_nat (length (window n))) * dtQ s.

Definition window_average (C : Components) (mg : RasterModelGrid) (s : Settings)
    (n : nat) (z0 : array) (v : nat) : Q :=
  sum_steps (fun i => step_change C mg s z0 i v) (window n)
  * / window_duration s n.

(** ** Data for the worked examples *)

(** A kernel that is exact where the examples use it: square roots of
    perfect squares and integer powers.  The slope exponent is 1 in every
    example, so the root finder is never reached. *)
Definition Qsqrt (x : Q) : Q := Z.sqrt (Qnum x) # Pos.sqrt (Qden x).

Definition example_kernel : RealKernel :=
  {| rpow := fun x y =>
       if Qeq_bool y (1 # 2) then Qsqrt x
       else Qpower x (Qnum y / Zpos (Qden y));
     sqrt2 := 14142 # 10000;
     implicit_root := fun _ _ zold _ => zold |}.

(** A raster as the reader hands it over: perimeter nodes FIXED_VALUE,
    interior nodes CORE. *)
Definition raster (nr nc : nat) (dx : Q) : RasterModelGrid :=
  {| number_of_node_rows := nr;
     number_of_node_columns := nc;
     grid_dx := dx;
     status_at_node :=
       map (fun v =>
              if ((v / nc =? 0) || (v / nc =? nr - 1)
                  || (v mod nc =? 0) || (v mod nc =? nc - 1))%nat
              then BC_NODE_IS_FIXED_VALUE else BC_NODE_IS_CORE)
           (seq 0 (nr * nc)) |}.

Definition grid_5x5 : RasterModelGrid := set_boundary_status (raster 5 5 1).
Definition grid_3x3 : RasterModelGrid := set_boundary_status (raster 3 3 1).

Definition flat_field (n : nat) (h : Q) : array := map (fun _ => h) (seq 0 n).

(** A small ridge on the 5 by 5 grid. *)
Definition ridge_field : array :=
  [0; 0; 0; 0; 0;
   0; 3; 4; 3; 0;
   0; 5; 9; 6; 0;
   0; 3; 1; 3; 0;
   0; 0; 0; 0; 0].

Definition reference : Components := reference_components example_kernel.

(** The end-to-end scenario: D = 1, K_sp = 0, an uplift of 0.001 per step
    of 10 years, a declared duration of 5 steps. *)
Definition scenario_settings : Settings :=
  {| D := 1; Ksp := 0; threshold := 0; uplift_rate := 1 # 10000;
     total_t := 50; dt := 10 |}.

(** The same scenario without diffusion. *)
Definition scenario_without_diffusion : Settings :=
  {| D := 0; Ksp := 0; threshold := 0; uplift_rate := 1 # 10000;
     total_t := 50; dt := 10 |}.

(** A run whose erosion starts with the window: the uplift builds relief by
    0.01 per pass and the stream power passes the threshold after pass 900.
    The first variant ends one pass into the window, the second runs the
    script's 10000 years. *)
Definition short_window_settings : Settings :=
  {| D := 0; Ksp := 2 # 10000; threshold := 18 # 10000;
     uplift_rate := 1 # 1000; total_t := 9010; dt := 10 |}.

Definition full_window_settings : Settings :=
  {| D := 0; Ksp := 2 # 10000; threshold := 18 # 10000;
     uplift_rate := 1 # 1000; total_t := 10000; dt := 10 |}.

(** A field on the 3 by 3 grid with the one CORE node raised by 1. *)
Definition bump_field : array := [0; 0; 0; 0; 1; 0; 0; 0; 0].

(** A 3 by 3 grid with one CORE node and a single open boundary node. *)
Definition single_outlet_grid : RasterModelGrid :=
  {| number_of_node_rows := 3;
     number_of_node_columns := 3;
     grid_dx := 1;
     status_at_node :=
       [BC_NODE_IS_CLOSED; BC_NODE_IS_FIXED_VALUE; BC_NODE_IS_CLOSED;
        BC_NODE_IS_CLOSED; BC_NODE_IS_CORE; BC_NODE_IS_CLOSED;
        BC_NODE_IS_CLOSED; BC_NODE_IS_CLOSED; BC_NODE_IS_CLOSED] |}.

(** ** The rest of the script *)

(** How often a statement of the loop appears in a history. *)
Definition count_calls (a : Call) (l : list Call) : nat :=
  length (filter (call_eqb a) l).

(** How often one run with loop bound [n] executes a statement. *)
Definition calls_per_run (n : nat) (a : Call) : nat :=
  match a with
  | LedgerOpen | LedgerClose => (n - 900)%nat
  | _ => (n + 1)%nat
  end.

(** The uplift a node receives in one pass. *)
Definition uplift_at (mg : RasterModelGrid) (s : Settings) (v : nat) : Q :=
  if is_core mg v then uplift_per_step s else 0.

Definition QofNat (k : nat) : Q := inject_Z (Z.of_nat k).

(** Sections F and H: [mg.node_vector_to_raster(z)] cuts the node array into
    the rows of the grid, bottom row first, and refuses an array that does
    not hold one value per node. *)
Fixpoint rows_of (nr nc : nat) (u : array) : list (list Q) :=
  match nr with
  | O => []
  | S k => firstn nc u :: rows_of k nc (skipn nc u)
  end.

Definition node_vector_to_raster (mg : RasterModelGrid) (u : array)
  : option (list (list Q)) :=
  if (length u =? number_of_nodes mg)%nat
  then Some (rows_of (number_of_node_rows mg) (number_of_node_columns mg) u)
  else None.

(** [rast[:, c]]; the index must exist. *)
Definition raster_column (ncols c : nat) (rast : list (list Q))
  : option (list Q) :=
  if (c <? ncols)%nat then Some (map (fun row => nth c row 0) rast) else None.

(** Lines 120-123 and 159-162: the elevations plotted as the N-S cross
    section, [elev_rast[:, int(ncols // 2)]]. *)
Definition cross_profile (mg : RasterModelGrid) (z : array) : option (list Q) :=
  match node_vector_to_raster mg z with
  | Some rast =>
      raster_column (number_of_node_columns mg)
                    (number_of_node_columns mg / 2) rast
  | None => None
  end.

(** Components that do not act, as the script describes the diffuser and
    the eroder for [D = 0] and [K_sp = 0]. *)
Definition inert_components : Components :=
  {| LinearDiffuser := fun _ _ _ z => z;
     FlowAccumulator := FlowRouter_route;
     FastscapeEroder := fun _ _ _ _ _ _ _ z => z |}.

(** * Properties *)

(** ** Arrays *)

Lemma upd_length {A : Type} (i : nat) (x : A) (l : list A) :
  length (upd i x l) = length l.
Proof.
  revert i; induction l as [|y l IH]; intros [|i]; simpl; auto.
Qed.

Lemma nth_upd_eq {A : Type} (i : nat) (x d : A) (l : list A) :
  (i < length l)%nat -> nth i (upd i x l) d = x.
Proof.
  revert i; induction l as [|y l IH]; intros [|i] H; simpl in *; try lia; auto.
  apply IH; lia.
Qed.

Lemma nth_upd_ne {A : Type} (i j : nat) (x d : A) (l : list A) :
  i <> j -> nth j (upd i x l) d = nth j l d.
Proof.
  revert i j; induction l as [|y l IH]; intros [|i] [|j] H; simpl; auto; try lia.
Qed.

Lemma assign_at_length {A : Type} (idx : list nat) (x : A) (l : list A) :
  length (assign_at idx x l) = length l.
Proof.
  unfold assign_at; revert l; induction idx as [|i idx IH]; intros l; simpl; auto.
  rewrite IH; apply upd_length.
Qed.

Lemma nth_assign_at_notin {A : Type} (idx : list nat) (x d : A) (l : list A) (j : nat) :
  ~ In j idx -> nth j (assign_at idx x l) d = nth j l d.
Proof.
  unfold assign_at; revert l; induction idx as [|i idx IH]; intros l H; simpl; auto.
  rewrite IH by (intros F; apply H; right; exact F).
  apply nth_upd_ne; intros ->; apply H; left; reflexivity.
Qed.

Lemma nth_assign_at_in {A : Type} (idx : list nat) (x d : A) (l : list A) (j : nat) :
  In j idx -> (j < length l)%nat -> nth j (assign_at idx x l) d = x.
Proof.
  unfold assign_at; revert l; induction idx as [|i idx IH]; intros l H Hlt; simpl.
  - destruct H.
  - destruct (in_dec Nat.eq_dec j idx) as [Hin|Hout].
    + apply IH; auto. rewrite upd_length; exact Hlt.
    + destruct H as [->|H]; [|contradiction].
      change (nth j (assign_at idx x (upd j x l)) d = x).
      rewrite nth_assign_at_notin by exact Hout.
      apply nth_upd_eq; exact Hlt.
Qed.

Lemma add_at_length (idx : list nat) (u : Q) (a : array) :
  length (add_at idx u a) = length a.
Proof.
  unfold add_at; revert a; induction idx as [|i idx IH]; intros a; simpl; auto.
  rewrite IH; apply upd_length.
Qed.

Lemma at_add_at_notin (idx : list nat) (u : Q) (a : array) (j : nat) :
  ~ In j idx -> at_ (add_at idx u a) j = at_ a j.
Proof.
  unfold add_at; revert a; induction idx as [|i idx IH]; intros a H; simpl; auto.
  rewrite IH by (intros F; apply H; right; exact F).
  unfold at_; apply nth_upd_ne; intros ->; apply H; left; reflexivity.
Qed.

Lemma at_add_at_in (idx : list nat) (u : Q) (a : array) (j : nat) :
  NoDup idx -> In j idx -> (j < length a)%nat ->
  at_ (add_at idx u a) j = at_ a j + u.
Proof.
  unfold add_at; revert a; induction idx as [|i idx IH]; intros a Hnd H Hlt; simpl.
  - destruct H.
  - inversion Hnd as [|? ? Hni Hnd']; subst.
    destruct H as [->|H].
    + change (at_ (add_at idx u (upd j (at_ a j + u) a)) j = at_ a j + u).
      rewrite at_add_at_notin by exact Hni.
      unfold at_ at 1; apply nth_upd_eq; exact Hlt.
    + rewrite IH; auto.
      * f_equal. unfold at_ at 1. apply nth_upd_ne. intros ->; contradiction.
      * rewrite upd_length; exact Hlt.
Qed.

Lemma core_nodes_NoDup (mg : RasterModelGrid) : NoDup (core_nodes mg).
Proof. unfold core_nodes. apply NoDup_filter, seq_NoDup. Qed.

Lemma in_core_nodes (mg : RasterModelGrid) (v : nat) :
  In v (core_nodes mg) <-> status mg v = BC_NODE_IS_CORE.
Proof.
  unfold core_nodes. rewrite filter_In, in_seq. unfold is_core.
  split.
  - intros [_ H]. destruct (status mg v); simpl in H; congruence.
  - intros H. split.
    + destruct (Nat.lt_ge_cases v (length (status_at_node mg))) as [Hlt|Hge]; [lia|].
      unfold status in H. rewrite nth_overflow in H by exact Hge. discriminate.
    + rewrite H; reflexivity.
Qed.

Lemma map2_length {A B C : Type} (f : A -> B -> C) (l1 : list A) (l2 : list B) :
  length l1 = length l2 -> length (map2 f l1 l2) = length l1.
Proof.
  revert l2; induction l1 as [|x l1 IH]; intros [|y l2] H; simpl in *; auto; try lia.
Qed.

Lemma nth_map2 {A B C : Type} (f : A -> B -> C) (l1 : list A) (l2 : list B)
    (da : A) (db : B) (dc : C) (v : nat) :
  length l1 = length l2 -> (v < length l1)%nat ->
  nth v (map2 f l1 l2) dc = f (nth v l1 da) (nth v l2 db).
Proof.
  revert l2 v; induction l1 as [|x l1 IH]; intros [|y l2] [|v] H Hv;
    simpl in *; auto; try lia.
  apply IH; lia.
Qed.

Lemma at_isub (a b : array) (v : nat) :
  length a = length b -> at_ (isub a b) v == at_ a v - at_ b v.
Proof.
  intros H. unfold at_, isub.
  destruct (Nat.lt_ge_cases v (length a)) as [Hlt|Hge].
  - rewrite (nth_map2 Qminus a b 0 0 0 v H Hlt). reflexivity.
  - rewrite !nth_overflow; try lra; try lia.
    rewrite map2_length; auto.
Qed.

Lemma at_iadd (a b : array) (v : nat) :
  length a = length b -> at_ (iadd a b) v == at_ a v + at_ b v.
Proof.
  intros H. unfold at_, iadd.
  destruct (Nat.lt_ge_cases v (length a)) as [Hlt|Hge].
  - rewrite (nth_map2 Qplus a b 0 0 0 v H Hlt). reflexivity.
  - rewrite !nth_overflow; try lra; try lia.
    rewrite map2_length; auto.
Qed.

Lemma at_scale (a : array) (c : Q) (v : nat) :
  at_ (scale a c) v == at_ a v * c.
Proof.
  unfold at_, scale.
  destruct (Nat.lt_ge_cases v (length a)) as [Hlt|Hge].
  - rewrite (nth_indep _ 0 (0 * c)) by (rewrite length_map; exact Hlt).
    rewrite (map_nth (fun x => x * c)). reflexivity.
  - rewrite !nth_overflow; try lra; try lia. rewrite length_map; lia.
Qed.

(** ** Boundary setup *)

Lemma closed_after_closing (st : list NodeStatus) (l r : list nat) (c : nat) :
  (c < length st)%nat -> In c l \/ In c r ->
  nth c (assign_at r BC_NODE_IS_CLOSED (assign_at l BC_NODE_IS_CLOSED st))
      BC_NODE_IS_CLOSED = BC_NODE_IS_CLOSED.
Proof.
  intros Hlt H.
  destruct (in_dec Nat.eq_dec c r) as [Hr|Hr].
  - apply nth_assign_at_in; auto. rewrite assign_at_length; exact Hlt.
  - rewrite nth_assign_at_notin by exact Hr.
    destruct H as [H|H]; [|contradiction].
    apply nth_assign_at_in; auto.
Qed.

Lemma corner_in_edges (mg : RasterModelGrid) (c : nat) :
  (0 < number_of_node_rows mg)%nat -> (0 < number_of_node_columns mg)%nat ->
  In c (corner_nodes mg) ->
  (In c (nodes_at_top_edge mg) \/ In c (nodes_at_bottom_edge mg)) /\
  (In c (nodes_at_left_edge mg) \/ In c (nodes_at_right_edge mg)) /\
  (c < number_of_nodes mg)%nat.
Proof.
  unfold corner_nodes, nodes_at_top_edge, nodes_at_bottom_edge,
    nodes_at_left_edge, nodes_at_right_edge, number_of_nodes.
  set (nr := number_of_node_rows mg). set (nc := number_of_node_columns mg).
  intros Hr Hc H. simpl in H.
  assert (Hnr : (nr = S (nr - 1))%nat) by lia.
  assert (Hmul : (nr * nc = (nr - 1) * nc + nc)%nat).
  { rewrite Hnr at 1. simpl. lia. }
  destruct H as [<-|[<-|[<-|[<-|[]]]]].
  - split; [right; apply in_seq; lia|]. split; [|lia].
    left. apply in_map_iff. exists 0%nat. split; [lia|apply in_seq; lia].
  - split; [right; apply in_seq; lia|]. split; [|lia].
    right. apply in_map_iff. exists 0%nat. split; [lia|apply in_seq; lia].
  - split; [left; apply in_seq; lia|]. split; [|lia].
    left. apply in_map_iff. exists (nr - 1)%nat. split; [lia|apply in_seq; lia].
  - split; [left; apply in_seq; lia|]. split; [|lia].
    right. apply in_map_iff. exists (nr - 1)%nat. split; [lia|apply in_seq; lia].
Qed.

(** C9. After the boundary setup of lines 60-63 the four corner nodes are
    CLOSED: every corner lies both on a north/south edge (written
    FIXED_VALUE first) and on an east/west edge (written CLOSED afterwards),
    and the later write decides its status. *)
Theorem corners_closed_after_setup (mg : RasterModelGrid) :
  (0 < number_of_node_rows mg)%nat ->
  (0 < number_of_node_columns mg)%nat ->
  length (status_at_node mg) = number_of_nodes mg ->
  forall c, In c (corner_nodes mg) ->
    (In c (nodes_at_top_edge mg) \/ In c (nodes_at_bottom_edge mg)) /\
    (In c (nodes_at_left_edge mg) \/ In c (nodes_at_right_edge mg)) /\
    status (set_boundary_status mg) c = BC_NODE_IS_CLOSED /\
    status (set_boundary_status mg) c <> BC_NODE_IS_FIXED_VALUE.
Proof.
  intros Hr Hc Hlen c Hin.
  destruct (corner_in_edges mg c Hr Hc Hin) as (Hns & Hew & Hlt).
  split; [exact Hns|]. split; [exact Hew|].
  assert (Hclosed : status (set_boundary_status mg) c = BC_NODE_IS_CLOSED).
  { unfold status, set_boundary_status; simpl.
    apply closed_after_closing; [|exact Hew].
    rewrite !assign_at_length, Hlen. exact Hlt. }
  split; [exact Hclosed|]. rewrite Hclosed; discriminate.
Qed.

(** ** Uplift *)

(** C4. One application of the uplift adds exactly [uplift_rate * dt] to the
    elevation of every CORE node and leaves every other node, and every
    other field, as it was; [uplift] is a total function. *)
Theorem uplift_core_only (mg : RasterModelGrid) (s : Settings) (m : Model) :
  length (status_at_node mg) = length (topographic__elevation m) ->
  forall v,
    (status mg v = BC_NODE_IS_CORE ->
       at_ (topographic__elevation (uplift mg s m)) v
       = at_ (topographic__elevation m) v + uplift_rate s * dtQ s) /\
    (status mg v <> BC_NODE_IS_CORE ->
       at_ (topographic__elevation (uplift mg s m)) v
       = at_ (topographic__elevation m) v) /\
    length (topographic__elevation (uplift mg s m))
       = length (topographic__elevation m) /\
    erode_dep (uplift mg s m) = erode_dep m /\
    t_erode_dep (uplift mg s m) = t_erode_dep m.
Proof.
  intros Hlen v. simpl. repeat split.
  - intros Hcore. unfold uplift_per_step.
    apply at_add_at_in.
    + apply core_nodes_NoDup.
    + apply in_core_nodes; exact Hcore.
    + rewrite <- Hlen.
      destruct (Nat.lt_ge_cases v (length (status_at_node mg))) as [Hlt|Hge]; auto.
      unfold status in Hcore. rewrite nth_overflow in Hcore by exact Hge. discriminate.
  - intros Hnc. apply at_add_at_notin. rewrite in_core_nodes. exact Hnc.
  - apply add_at_length.
Qed.

(** ** The loop *)

Lemma sum_steps_app (f : nat -> Q) (l1 l2 : list nat) :
  sum_steps f (l1 ++ l2) == sum_steps f l1 + sum_steps f l2.
Proof.
  induction l1 as [|i l1 IH]; simpl.
  - lra.
  - rewrite IH. lra.
Qed.

Lemma filter_seq_S (p : nat -> bool) (k : nat) :
  filter p (seq 0 (S k)) = filter p (seq 0 k) ++ (if p k then [k] else []).
Proof.
  rewrite seq_S, filter_app. simpl. destruct (p k); reflexivity.
Qed.

Section Loop.

Variable C : Components.
Variable mg : RasterModelGrid.
Variable s : Settings.

Lemma run_steps_S (k : nat) (m : Model) :
  run_steps C mg s (S k) m = loop_body C mg s k (run_steps C mg s k m).
Proof.
  unfold run_steps. rewrite seq_S, fold_left_app. reflexivity.
Qed.

Lemma loop_body_elevation (i : nat) (m : Model) :
  topographic__elevation (loop_body C mg s i m)
  = next_elevation C mg s (topographic__elevation m).
Proof.
  unfold loop_body, next_elevation, after_processes.
  destruct (900 <? i)%nat; reflexivity.
Qed.

Lemma loop_body_flow (i : nat) (m : Model) :
  flow (loop_body C mg s i m)
  = FlowAccumulator C mg
      (LinearDiffuser C mg (D s) (dtQ s) (topographic__elevation m)).
Proof.
  unfold loop_body. destruct (900 <? i)%nat; reflexivity.
Qed.

Lemma loop_body_history (i : nat) (m : Model) :
  history (loop_body C mg s i m) = history m ++ pass_calls i.
Proof.
  unfold loop_body, pass_calls.
  destruct (900 <? i)%nat; simpl; repeat rewrite <- app_assoc; reflexivity.
Qed.

Lemma run_steps_elevation (k : nat) (m : Model) :
  topographic__elevation (run_steps C mg s k m)
  = elevation_at_pass C mg s k (topographic__elevation m).
Proof.
  induction k as [|k IH]; [reflexivity|].
  rewrite run_steps_S, loop_body_elevation, IH. reflexivity.
Qed.

Lemma run_steps_history (k : nat) (m : Model) :
  history (run_steps C mg s k m)
  = history m ++ flat_map pass_calls (seq 0 k).
Proof.
  induction k as [|k IH].
  - simpl. rewrite app_nil_r. reflexivity.
  - rewrite run_steps_S, loop_body_history, IH, seq_S, flat_map_app.
    simpl. rewrite app_nil_r, app_assoc. reflexivity.
Qed.

(** The components rewrite the elevation array in place: its length stays. *)
Hypothesis diffuser_length : forall z,
  length (LinearDiffuser C mg (D s) (dtQ s) z) = length z.
Hypothesis eroder_length : forall ff z,
  length (FastscapeEroder C mg (Ksp s) (1 # 2) 1 (threshold s) (dtQ s) ff z)
  = length z.

Lemma after_processes_length (z : array) :
  length (after_processes C mg s z) = length z.
Proof.
  unfold after_processes. rewrite eroder_length. apply diffuser_length.
Qed.

Lemma next_elevation_length (z : array) :
  length (next_elevation C mg s z) = length z.
Proof.
  unfold next_elevation. rewrite add_at_length. apply after_processes_length.
Qed.

Lemma elevation_at_pass_length (k : nat) (z : array) :
  length (elevation_at_pass C mg s k z) = length z.
Proof.
  induction k as [|k IH]; simpl; [reflexivity|].
  rewrite next_elevation_length; exact IH.
Qed.

(** What one pass does to the two ledgers. *)
Lemma loop_body_ledger (i : nat) (m : Model) :
  length (erode_dep m) = length (topographic__elevation m) ->
  length (t_erode_dep m) = length (topographic__elevation m) ->
  let m' := loop_body C mg s i m in
  length (erode_dep m') = length (topographic__elevation m) /\
  length (t_erode_dep m') = length (topographic__elevation m) /\
  forall v,
    at_ (t_erode_dep m') v ==
      at_ (t_erode_dep m) v
      + (if (900 <? i)%nat
         then at_ (topographic__elevation m) v
              - at_ (after_processes C mg s (topographic__elevation m)) v
         else 0) /\
    ((900 < i)%nat ->
      at_ (erode_dep m') v ==
        at_ (topographic__elevation m) v
        - at_ (after_processes C mg s (topographic__elevation m)) v).
Proof.
  intros He Ht. unfold loop_body.
  destruct (900 <? i)%nat eqn:Hw;
    unfold uplift, ledger_close, erode_run_one_step, fr_run_one_step,
      lin_diffuse_run_one_step, ledger_open;
    cbn [topographic__elevation erode_dep t_erode_dep flow].
  - set (z := topographic__elevation m).
    set (ed0 := iadd (isub (erode_dep m) (erode_dep m)) z).
    fold (after_processes C mg s z).
    assert (Hed0 : length ed0 = length z).
    { unfold ed0, iadd, isub. rewrite map2_length; rewrite map2_length; auto. }
    assert (Hed1 : length (isub ed0 (after_processes C mg s z)) = length z).
    { unfold isub. rewrite map2_length; auto.
      rewrite after_processes_length; exact Hed0. }
    split; [exact Hed1|]. split.
    { unfold iadd. rewrite map2_length; [exact Ht|].
      rewrite Hed1. exact Ht. }
    intros v.
    assert (Hv : at_ (isub ed0 (after_processes C mg s z)) v
                 == at_ z v - at_ (after_processes C mg s z) v).
    { rewrite at_isub by (rewrite after_processes_length; exact Hed0).
      unfold ed0. rewrite at_iadd.
      - rewrite at_isub by reflexivity. lra.
      - unfold isub. rewrite map2_length; auto. }
    split.
    + rewrite at_iadd by (rewrite Hed1; exact Ht). rewrite Hv. reflexivity.
    + intros _. exact Hv.
  - split; [exact He|]. split; [exact Ht|]. intros v. split; [lra|].
    intros Hi. apply Nat.ltb_ge in Hw. lia.
Qed.

(** After [k] passes the running total holds the changes of the windowed
    passes among them, on top of what it held at the start. *)
Lemma run_steps_ledger (k : nat) (m : Model) :
  length (erode_dep m) = length (topographic__elevation m) ->
  length (t_erode_dep m) = length (topographic__elevation m) ->
  let mk := run_steps C mg s k m in
  length (erode_dep mk) = length (topographic__elevation m) /\
  length (t_erode_dep mk) = length (topographic__elevation m) /\
  forall v,
    at_ (t_erode_dep mk) v ==
      at_ (t_erode_dep m) v
      + sum_steps (fun i => step_change C mg s (topographic__elevation m) i v)
                  (filter (fun i => (900 <? i)%nat) (seq 0 k)).
Proof.
  intros He Ht. induction k as [|k IH]; cbv zeta.
  - change (run_steps C mg s 0 m) with m.
    split; [exact He|]. split; [exact Ht|]. intros v; simpl. lra.
  - cbv zeta in IH. destruct IH as (IHe & IHt & IHv).
    rewrite run_steps_S.
    assert (Hz : length (topographic__elevation (run_steps C mg s k m))
                 = length (topographic__elevation m)).
    { rewrite run_steps_elevation. apply elevation_at_pass_length. }
    destruct (loop_body_ledger k (run_steps C mg s k m)) as (He' & Ht' & Hv');
      try congruence.
    split; [congruence|]. split; [congruence|]. intros v.
    destruct (Hv' v) as [Hv1 _]. rewrite Hv1, IHv.
    rewrite filter_seq_S, sum_steps_app.
    rewrite run_steps_elevation.
    set (S0 := sum_steps _ (filter _ (seq 0 k))).
    destruct (900 <? k)%nat; unfold sum_steps, step_change;
      cbn [fold_right]; lra.
Qed.

End Loop.

(** ** Order of the calls within a pass *)

(** C1, as the script has it.  In every pass the diffuser runs first, the
    flow accumulator second and on the elevation the diffuser has just
    produced, the eroder third with that flow field; the ledger brackets the
    three inside the window and the uplift comes last. *)
Theorem pass_order (C : Components) (mg : RasterModelGrid) (s : Settings)
    (i : nat) (m : Model) :
  let before := run_steps C mg s i m in
  let after := run_steps C mg s (S i) m in
  let z0 := topographic__elevation before in
  let z1 := LinearDiffuser C mg (D s) (dtQ s) z0 in
  let ff := FlowAccumulator C mg z1 in
  let z2 := FastscapeEroder C mg (Ksp s) (1 # 2) 1 (threshold s) (dtQ s) ff z1 in
  history after = history before ++ pass_calls i /\
  runs_before Diffuse Route (pass_calls i) = true /\
  runs_before Route Erode (pass_calls i) = true /\
  runs_before Erode Uplift (pass_calls i) = true /\
  flow after = ff /\
  topographic__elevation after = add_at (core_nodes mg) (uplift_per_step s) z2.
Proof.
  cbv zeta. rewrite run_steps_S.
  split; [apply loop_body_history|].
  split; [unfold pass_calls; destruct (900 <? i)%nat; reflexivity|].
  split; [unfold pass_calls; destruct (900 <? i)%nat; reflexivity|].
  split; [unfold pass_calls; destruct (900 <? i)%nat; reflexivity|].
  split; [apply loop_body_flow|].
  apply loop_body_elevation.
Qed.

(** C1, as stated, fails on the first pass already: the calls made are not
    the sequence that starts with the routing, the routing does not run
    before the diffusion, and the drainage area the eroder is given is the
    one of the diffused field, not of the field the pass started from. *)
Lemma route_does_not_run_first :
  let m1 := loop_body reference grid_5x5 script_settings 0
                      (initial_model ridge_field) in
  history m1 <> spec_pass_calls 0 /\
  runs_before Route Diffuse (history m1) = false /\
  history m1 = [Diffuse; Route; Erode; Uplift] /\
  at_ (drainage_area (flow m1)) 17 == 2 /\
  at_ (drainage_area (FlowRouter_route grid_5x5 ridge_field)) 17 == 4.
Proof.
  cbv zeta. rewrite loop_body_history, loop_body_flow.
  split; [discriminate|]. split; [reflexivity|]. split; [reflexivity|].
  split; apply Qeq_bool_iff; vm_compute; reflexivity.
Qed.

(** ** Flow routing *)

Lemma Qlt_bool_iff (x y : Q) : Qlt_bool x y = true <-> x < y.
Proof.
  unfold Qlt_bool. rewrite negb_true_iff.
  split.
  - intros H. apply Qnot_le_lt. intros Hle.
    apply Qle_bool_iff in Hle. congruence.
  - intros H. destruct (Qle_bool y x) eqn:E; auto.
    apply Qle_bool_iff in E. apply Qlt_not_le in H. contradiction.
Qed.

Lemma lowest_in (z : array) (cands : list nat) (u : nat) :
  lowest z cands = Some u -> In u cands.
Proof.
  revert u; induction cands as [|c rest IH]; intros u H; simpl in H.
  - discriminate.
  - destruct (lowest z rest) as [w|] eqn:E.
    + destruct (better z w c); inversion H; subst.
      * right; apply IH; reflexivity.
      * left; reflexivity.
    + inversion H; subst. left; reflexivity.
Qed.

Lemma neighbors_bound (mg : RasterModelGrid) (v u : nat) :
  In u (neighbors mg v) -> (u < number_of_nodes mg)%nat.
Proof.
  unfold neighbors, number_of_nodes.
  set (nr := number_of_node_rows mg). set (nc := number_of_node_columns mg).
  intros H. apply in_flat_map in H. destruct H as (dr & _ & H).
  apply in_flat_map in H. destruct H as (dc & _ & H).
  destruct ((dr =? 1) && (dc =? 1))%nat; [destruct H|].
  destruct ((1 <=? v / nc + dr) && (v / nc + dr <=? nr)
            && (1 <=? v mod nc + dc) && (v mod nc + dc <=? nc))%nat eqn:E;
    [|destruct H].
  destruct H as [<-|[]].
  repeat rewrite andb_true_iff in E. destruct E as [[[E1 E2] E3] E4].
  apply Nat.leb_le in E1, E2, E3, E4.
  set (r' := (v / nc + dr - 1)%nat). set (c' := (v mod nc + dc - 1)%nat).
  assert (Hr : (r' + 1 <= nr)%nat) by (unfold r'; lia).
  assert (Hc : (c' + 1 <= nc)%nat) by (unfold c'; lia).
  nia.
Qed.

Lemma receiver_of_cases (mg : RasterModelGrid) (z : array) (v : nat) :
  receiver_of mg z v = v \/
  (is_core mg v = true /\
   In (receiver_of mg z v) (valid_neighbors mg v) /\
   at_ z (receiver_of mg z v) < at_ z v).
Proof.
  unfold receiver_of. destruct (is_core mg v) eqn:Hc; [|left; reflexivity].
  destruct (lowest z (valid_neighbors mg v)) as [u|] eqn:E; [|left; reflexivity].
  destruct (Qlt_bool (at_ z u) (at_ z v)) eqn:Hlt; [|left; reflexivity].
  right. split; [reflexivity|]. split.
  - apply lowest_in in E; exact E.
  - apply Qlt_bool_iff; exact Hlt.
Qed.

Lemma receiver_of_bound (mg : RasterModelGrid) (z : array) (v : nat) :
  (v < number_of_nodes mg)%nat -> (receiver_of mg z v < number_of_nodes mg)%nat.
Proof.
  intros Hv. destruct (receiver_of_cases mg z v) as [->|(_ & Hin & _)]; auto.
  unfold valid_neighbors in Hin. apply filter_In in Hin.
  eapply neighbors_bound; apply Hin.
Qed.

Lemma receiver_of_open (mg : RasterModelGrid) (z : array) (v : nat) :
  receiver_of mg z v <> v ->
  status_eqb (status mg (receiver_of mg z v)) BC_NODE_IS_CLOSED = false.
Proof.
  intros Hne. destruct (receiver_of_cases mg z v) as [H|(_ & Hin & _)];
    [contradiction|].
  unfold valid_neighbors in Hin. apply filter_In in Hin.
  destruct Hin as [_ H]. apply negb_true_iff in H; exact H.
Qed.

Lemma receiver_route (mg : RasterModelGrid) (z : array) (v : nat) :
  receiver (flow__receiver_node (FlowRouter_route mg z)) v
  = if (v <? number_of_nodes mg)%nat then receiver_of mg z v else v.
Proof.
  unfold receiver, FlowRouter_route; cbn [flow__receiver_node].
  destruct (v <? number_of_nodes mg)%nat eqn:E.
  - apply Nat.ltb_lt in E.
    rewrite (nth_indep _ v (receiver_of mg z 0))
      by (rewrite length_map, length_seq; exact E).
    rewrite map_nth, seq_nth by exact E. reflexivity.
  - apply Nat.ltb_ge in E. apply nth_overflow.
    rewrite length_map, length_seq; exact E.
Qed.

Lemma receiver_route_cases (mg : RasterModelGrid) (z : array) (v : nat) :
  let r := receiver (flow__receiver_node (FlowRouter_route mg z)) v in
  r = v \/
  (is_core mg v = true /\ (v < number_of_nodes mg)%nat /\
   (r < number_of_nodes mg)%nat /\
   status_eqb (status mg r) BC_NODE_IS_CLOSED = false /\
   at_ z r < at_ z v).
Proof.
  cbv zeta. rewrite receiver_route.
  destruct (v <? number_of_nodes mg)%nat eqn:E; [|left; reflexivity].
  apply Nat.ltb_lt in E.
  destruct (Nat.eq_dec (receiver_of mg z v) v) as [Heq|Hne]; [left; exact Heq|].
  right. destruct (receiver_of_cases mg z v) as [H|(Hc & _ & Hlt)];
    [contradiction|].
  split; [exact Hc|]. split; [exact E|].
  split; [apply receiver_of_bound; exact E|].
  split; [apply receiver_of_open; exact Hne|exact Hlt].
Qed.

(** Following receivers never climbs. *)
Lemma downstream_not_higher (mg : RasterModelGrid) (z : array) (k v : nat) :
  at_ z (downstream (flow__receiver_node (FlowRouter_route mg z)) k v) <= at_ z v.
Proof.
  revert v; induction k as [|k IH]; intros v; cbn [downstream].
  - apply Qle_refl.
  - eapply Qle_trans; [apply IH|].
    destruct (receiver_route_cases mg z v) as [H|(_ & _ & _ & _ & H)].
    + rewrite H. apply Qle_refl.
    + apply Qlt_le_weak; exact H.
Qed.

Lemma filter_length_le {A : Type} (p q : A -> bool) (l : list A) :
  (forall x, In x l -> p x = true -> q x = true) ->
  (length (filter p l) <= length (filter q l))%nat.
Proof.
  induction l as [|x l IH]; intros H; simpl; [lia|].
  assert (IH' := IH (fun y Hy => H y (or_intror Hy))).
  destruct (p x) eqn:Hp.
  - rewrite (H x (or_introl eq_refl) Hp). simpl; lia.
  - destruct (q x); simpl; lia.
Qed.

Lemma filter_length_lt {A : Type} (p q : A -> bool) (l : list A) (a : A) :
  (forall x, In x l -> p x = true -> q x = true) ->
  In a l -> p a = false -> q a = true ->
  (length (filter p l) < length (filter q l))%nat.
Proof.
  induction l as [|x l IH]; intros H Hin Hpa Hqa; simpl; [destruct Hin|].
  assert (Hle := filter_length_le p q l (fun y Hy => H y (or_intror Hy))).
  destruct Hin as [->|Hin].
  - rewrite Hpa, Hqa. simpl; lia.
  - assert (IH' := IH (fun y Hy => H y (or_intror Hy)) Hin Hpa Hqa).
    destruct (p x) eqn:Hp.
    + rewrite (H x (or_introl eq_refl) Hp). simpl; lia.
    + destruct (q x); simpl; lia.
Qed.

Lemma below_drops (mg : RasterModelGrid) (z : array) (v r : nat) :
  (r < number_of_nodes mg)%nat -> at_ z r < at_ z v ->
  (below mg z r < below mg z v)%nat.
Proof.
  intros Hr Hlt. unfold below. apply filter_length_lt with (a := r).
  - intros x _ Hx. apply Qlt_bool_iff in Hx. apply Qlt_bool_iff.
    eapply Qlt_trans; eauto.
  - apply in_seq; lia.
  - destruct (Qlt_bool (at_ z r) (at_ z r)) eqn:E; auto.
    apply Qlt_bool_iff in E. apply Qlt_irrefl in E. destruct E.
  - apply Qlt_bool_iff; exact Hlt.
Qed.

Lemma below_bound (mg : RasterModelGrid) (z : array) (v : nat) :
  (below mg z v <= number_of_nodes mg)%nat.
Proof.
  unfold below.
  pose proof (filter_length_le (fun u => Qlt_bool (at_ z u) (at_ z v))
                (fun _ => true) (seq 0 (number_of_nodes mg))
                (fun _ _ _ => eq_refl)) as H.
  rewrite (forallb_filter_id (fun _ : nat => true)) in H.
  - rewrite length_seq in H. exact H.
  - apply forallb_forall. reflexivity.
Qed.

Lemma reaches_outlet (mg : RasterModelGrid) (z : array) (b v : nat) :
  (below mg z v <= b)%nat ->
  exists k, (k <= b)%nat /\
    let rcv := flow__receiver_node (FlowRouter_route mg z) in
    receiver rcv (downstream rcv k v) = downstream rcv k v.
Proof.
  revert v; induction b as [|b IH]; intros v Hb; cbv zeta.
  - exists 0%nat. split; [lia|]. cbn [downstream].
    destruct (receiver_route_cases mg z v) as [H|(_ & _ & Hr & _ & Hlt)]; auto.
    pose proof (below_drops mg z v _ Hr Hlt). lia.
  - destruct (receiver_route_cases mg z v) as [H|(_ & _ & Hr & _ & Hlt)].
    + exists 0%nat. split; [lia|]. exact H.
    + pose proof (below_drops mg z v _ Hr Hlt) as Hd.
      destruct (IH (receiver (flow__receiver_node (FlowRouter_route mg z)) v))
        as (k & Hk & Hroot); [lia|].
      exists (S k). split; [lia|]. exact Hroot.
Qed.

(** C7. Whatever the elevation field, ties included, the receivers computed
    by the router have no cycle: a node that is not its own receiver is a
    CORE node whose receiver is an open node strictly below it, so no chain
    of receivers returns to it, and every chain ends, within as many links
    as there are nodes, at a node that is its own receiver; boundary nodes
    are such roots. *)
Theorem receivers_form_forest (mg : RasterModelGrid) (z : array) :
  let rcv := flow__receiver_node (FlowRouter_route mg z) in
  (forall v k, receiver rcv v <> v -> downstream rcv (S k) v <> v) /\
  (forall v, exists k, (k <= number_of_nodes mg)%nat /\
     receiver rcv (downstream rcv k v) = downstream rcv k v) /\
  (forall v, receiver rcv v <> v ->
     status mg v = BC_NODE_IS_CORE /\
     status mg (receiver rcv v) <> BC_NODE_IS_CLOSED /\
     at_ z (receiver rcv v) < at_ z v) /\
  (forall v, status mg v <> BC_NODE_IS_CORE -> receiver rcv v = v).
Proof.
  cbv zeta. split; [|split; [|split]].
  - intros v k Hne Hback.
    destruct (receiver_route_cases mg z v) as [Hself|(_ & _ & _ & _ & Hlt)];
      [contradiction|].
    pose proof (downstream_not_higher mg z k
                  (receiver (flow__receiver_node (FlowRouter_route mg z)) v)) as Hle.
    cbn [downstream] in Hback. rewrite Hback in Hle.
    apply Qle_not_lt in Hle. contradiction.
  - intros v.
    destruct (reaches_outlet mg z (number_of_nodes mg) v (below_bound mg z v))
      as (k & Hk & Hroot).
    exists k. split; assumption.
  - intros v Hne.
    destruct (receiver_route_cases mg z v) as [Hself|(Hc & _ & _ & Ho & Hlt)];
      [contradiction|].
    split; [|split].
    + unfold is_core in Hc. destruct (status mg v); simpl in Hc; congruence.
    + intros Hcl. rewrite Hcl in Ho. discriminate.
    + exact Hlt.
  - intros v Hnc.
    destruct (receiver_route_cases mg z v) as [Hself|(Hc & _)]; [exact Hself|].
    unfold is_core in Hc. destruct (status mg v); simpl in Hc; congruence.
Qed.

(** ** Drainage area *)

Lemma insert_by_perm (z : array) (u : nat) (l : list nat) :
  Permutation (insert_by z u l) (u :: l).
Proof.
  induction l as [|w l IH]; simpl; [apply Permutation_refl|].
  destruct (precedes z u w); [apply Permutation_refl|].
  eapply Permutation_trans; [apply perm_skip, IH|apply perm_swap].
Qed.

Lemma sort_decreasing_perm (z : array) (l : list nat) :
  Permutation (sort_decreasing z l) l.
Proof.
  induction l as [|u l IH]; simpl; [apply Permutation_refl|].
  eapply Permutation_trans; [apply insert_by_perm|apply perm_skip, IH].
Qed.

Lemma precedes_true (z : array) (u w : nat) :
  precedes z u w = true -> at_ z w <= at_ z u.
Proof.
  unfold precedes. rewrite orb_true_iff, andb_true_iff.
  intros [H|[H _]].
  - apply Qlt_bool_iff in H. apply Qlt_le_weak; exact H.
  - apply Qeq_bool_iff in H. rewrite H. apply Qle_refl.
Qed.

Lemma precedes_false (z : array) (u w : nat) :
  precedes z u w = false -> at_ z u <= at_ z w.
Proof.
  unfold precedes. rewrite orb_false_iff. intros [H _].
  apply Qnot_lt_le. intros Hlt. apply Qlt_bool_iff in Hlt. congruence.
Qed.

Lemma insert_by_descending (z : array) (u : nat) (l : list nat) :
  descending z l -> descending z (insert_by z u l).
Proof.
  unfold descending. induction l as [|w l IH]; intros Hs; simpl.
  - constructor; constructor.
  - destruct (precedes z u w) eqn:E.
    + constructor; [exact Hs|].
      inversion Hs as [|? ? Hs' Hall]; subst.
      constructor; [apply precedes_true; exact E|].
      eapply Forall_impl; [|exact Hall].
      intros x Hx; cbv beta in *. eapply Qle_trans; [exact Hx|].
      apply precedes_true; exact E.
    + inversion Hs as [|? ? Hs' Hall]; subst.
      constructor; [apply IH; exact Hs'|].
      apply (Permutation_Forall (Permutation_sym (insert_by_perm z u l))).
      constructor; [apply precedes_false; exact E|exact Hall].
Qed.

Lemma sort_decreasing_descending (z : array) (l : list nat) :
  descending z (sort_decreasing z l).
Proof.
  induction l as [|u l IH]; simpl; [constructor|].
  apply insert_by_descending; exact IH.
Qed.

Lemma sum_steps_ext (f g : nat -> Q) (l : list nat) :
  (forall u, In u l -> g u == f u) -> sum_steps g l == sum_steps f l.
Proof.
  induction l as [|x l IH]; intros H; simpl; [reflexivity|].
  rewrite (H x (or_introl eq_refl)), IH; [reflexivity|].
  intros u Hu; apply H; right; exact Hu.
Qed.

(** Changing the summand at one index changes the sum by that much. *)
Lemma sum_steps_change (f g : nat -> Q) (l : list nat) (a : nat) :
  NoDup l -> In a l ->
  (forall u, In u l -> u <> a -> g u == f u) ->
  sum_steps g l == sum_steps f l + (g a - f a).
Proof.
  induction l as [|x l IH]; intros Hnd Hin H; simpl; [destruct Hin|].
  inversion Hnd as [|? ? Hx Hnd']; subst.
  destruct Hin as [->|Hin].
  - rewrite (sum_steps_ext f g l).
    + lra.
    + intros u Hu. apply H; [right; exact Hu|]. intros ->; contradiction.
  - rewrite IH; auto.
    + rewrite (H x (or_introl eq_refl)); [lra|]. intros ->; contradiction.
    + intros u Hu Hne. apply H; [right; exact Hu|exact Hne].
Qed.

Lemma existsb_eqb_in (v : nat) (l : list nat) :
  existsb (Nat.eqb v) l = true <-> In v l.
Proof.
  rewrite existsb_exists. split.
  - intros (x & Hx & E). apply Nat.eqb_eq in E. subst; exact Hx.
  - intros H. exists v. split; [exact H|apply Nat.eqb_refl].
Qed.

Lemma at_upd_eq (i : nat) (x : Q) (a : array) :
  (i < length a)%nat -> at_ (upd i x a) i = x.
Proof. intros H. unfold at_. apply nth_upd_eq; exact H. Qed.

Lemma at_upd_ne (i j : nat) (x : Q) (a : array) :
  i <> j -> at_ (upd i x a) j = at_ a j.
Proof. intros H. unfold at_. apply nth_upd_ne; exact H. Qed.

Section Accumulation.

Variable rcv : list nat.
Variable z : array.
Variable n : nat.

(** Every flow link goes strictly down, to a node of the grid. *)
Hypothesis links_descend : forall v,
  receiver rcv v <> v ->
  at_ z (receiver rcv v) < at_ z v /\ (receiver rcv v < n)%nat.

(** Handing area down the sorted order keeps the area held by the waiting
    nodes and the outlets together. *)
Lemma accumulate_keeps_held_area (todo : list nat) :
  NoDup todo ->
  descending z todo ->
  (forall v, In v todo -> (v < n)%nat) ->
  (forall v, In v todo -> receiver rcv v <> v ->
     In (receiver rcv v) todo \/
     receiver rcv (receiver rcv v) = receiver rcv v) ->
  forall acc, length acc = n ->
    held_area rcv [] (accumulate rcv todo acc) n == held_area rcv todo acc n.
Proof.
  unfold accumulate.
  induction todo as [|v t IH]; intros Hnd Hs Hlt Hcl acc Hlen;
    cbn [fold_left]; [reflexivity|].
  apply NoDup_cons_iff in Hnd. destruct Hnd as [Hvt Hnd'].
  apply StronglySorted_inv in Hs. destruct Hs as [Hs' Hall].
  assert (Hcl' : forall w, In w t -> receiver rcv w <> w ->
             In (receiver rcv w) t \/
             receiver rcv (receiver rcv w) = receiver rcv w).
  { intros w Hw Hne.
    destruct (Hcl w (or_intror Hw) Hne) as [[Heq|Hin]|Hroot]; auto.
    exfalso. rewrite Forall_forall in Hall. specialize (Hall w Hw).
    destruct (links_descend w Hne) as [Hd _]. rewrite <- Heq in Hd.
    apply Qle_not_lt in Hall. contradiction. }
  assert (Hlt' : forall w, In w t -> (w < n)%nat)
    by (intros w Hw; apply Hlt; right; exact Hw).
  unfold pass_down at 2.
  destruct (receiver rcv v =? v)%nat eqn:Eroot.
  - rewrite (IH Hnd' Hs' Hlt' Hcl' acc Hlen).
    unfold held_area. apply sum_steps_ext. intros u _.
    unfold holds_area. cbn [existsb].
    destruct (Nat.eqb_spec u v) as [->|Hne]; [|reflexivity].
    rewrite Eroot. reflexivity.
  - apply Nat.eqb_neq in Eroot.
    set (r := receiver rcv v) in *.
    destruct (links_descend v Eroot) as [Hd Hrn]. fold r in Hd, Hrn.
    assert (Hrv : r <> v) by exact Eroot.
    rewrite (IH Hnd' Hs' Hlt' Hcl' _).
    2:{ rewrite upd_length; exact Hlen. }
    assert (Hvn : (v < n)%nat) by (apply Hlt; left; reflexivity).
    assert (Hlive_r : holds_area rcv t r = true).
    { unfold holds_area.
      destruct (Hcl v (or_introl eq_refl) Eroot) as [[Heq|Hin]|Hroot].
      - exfalso; apply Hrv; symmetry; exact Heq.
      - fold r in Hin. apply existsb_eqb_in in Hin. rewrite Hin.
        apply orb_true_r.
      - fold r in Hroot. apply Nat.eqb_eq in Hroot. rewrite Hroot.
        reflexivity. }
    assert (Hdead_v : holds_area rcv t v = false).
    { unfold holds_area. fold r. apply Nat.eqb_neq in Hrv. rewrite Hrv.
      cbn [orb]. destruct (existsb (Nat.eqb v) t) eqn:E; auto.
      apply existsb_eqb_in in E. contradiction. }
    unfold held_area.
    set (acc' := upd r (at_ acc r + at_ acc v) acc).
    set (f := fun u => if holds_area rcv (v :: t) u then at_ acc u else 0).
    set (g := fun u => if holds_area rcv t u then at_ acc' u else 0).
    set (h := fun u => if (u =? v)%nat then 0 else f u).
    assert (Hh : sum_steps h (seq 0 n) == sum_steps f (seq 0 n) + (h v - f v)).
    { apply sum_steps_change.
      - apply seq_NoDup.
      - apply in_seq; lia.
      - intros u _ Hne. unfold h. apply Nat.eqb_neq in Hne. rewrite Hne.
        reflexivity. }
    assert (Hg : sum_steps g (seq 0 n) == sum_steps h (seq 0 n) + (g r - h r)).
    { apply sum_steps_change.
      - apply seq_NoDup.
      - apply in_seq; lia.
      - intros u _ Hne. unfold g, h, f.
        destruct (Nat.eqb_spec u v) as [->|Huv].
        + rewrite Hdead_v. reflexivity.
        + unfold acc'. rewrite at_upd_ne by (intros E; apply Hne; auto).
          unfold holds_area. cbn [existsb].
          apply Nat.eqb_neq in Huv. rewrite Huv. reflexivity. }
    rewrite Hg, Hh. unfold g, h, f.
    rewrite Hlive_r, Nat.eqb_refl.
    apply Nat.eqb_neq in Hrv. rewrite Hrv.
    assert (Hlive_v : holds_area rcv (v :: t) v = true).
    { unfold holds_area. cbn [existsb]. rewrite Nat.eqb_refl.
      apply orb_true_r. }
    assert (Hlive_r' : holds_area rcv (v :: t) r = true).
    { unfold holds_area in *. cbn [existsb]. rewrite Hrv. exact Hlive_r. }
    rewrite Hlive_v, Hlive_r'.
    unfold acc'. rewrite at_upd_eq by (rewrite Hlen; exact Hrn).
    lra.
Qed.

End Accumulation.

Lemma sum_over_filter (a : array) (p : nat -> bool) (l : list nat) :
  sum_over a (filter p l) == sum_steps (fun u => if p u then at_ a u else 0) l.
Proof.
  unfold sum_over. induction l as [|x l IH]; simpl; [reflexivity|].
  destruct (p x); simpl; rewrite IH; lra.
Qed.

Lemma in_open_nodes (mg : RasterModelGrid) (v : nat) :
  In v (open_nodes mg) <->
  (v < number_of_nodes mg)%nat /\
  status_eqb (status mg v) BC_NODE_IS_CLOSED = false.
Proof.
  unfold open_nodes. rewrite filter_In, in_seq, negb_true_iff.
  split; intros [H1 H2]; split; auto; lia.
Qed.

Lemma in_route_order (mg : RasterModelGrid) (z : array) (v : nat) :
  In v (flow__upstream_node_order (FlowRouter_route mg z)) <->
  In v (open_nodes mg).
Proof.
  cbn [FlowRouter_route flow__upstream_node_order].
  split; apply Permutation_in;
    [|apply Permutation_sym]; apply sort_decreasing_perm.
Qed.

Lemma route_order_NoDup (mg : RasterModelGrid) (z : array) :
  NoDup (flow__upstream_node_order (FlowRouter_route mg z)).
Proof.
  cbn [FlowRouter_route flow__upstream_node_order].
  apply (Permutation_NoDup (Permutation_sym (sort_decreasing_perm z _))).
  unfold open_nodes. apply NoDup_filter, seq_NoDup.
Qed.

Lemma route_links_descend (mg : RasterModelGrid) (z : array) (v : nat) :
  let rcv := flow__receiver_node (FlowRouter_route mg z) in
  receiver rcv v <> v ->
  at_ z (receiver rcv v) < at_ z v /\ (receiver rcv v < number_of_nodes mg)%nat.
Proof.
  cbv zeta. intros Hne.
  destruct (receiver_route_cases mg z v) as [H|(_ & _ & Hr & _ & Hlt)];
    [contradiction|].
  split; assumption.
Qed.

Lemma route_receiver_waits (mg : RasterModelGrid) (z : array) (v : nat) :
  let ff := FlowRouter_route mg z in
  receiver (flow__receiver_node ff) v <> v ->
  In v (flow__upstream_node_order ff) /\
  In (receiver (flow__receiver_node ff) v) (flow__upstream_node_order ff).
Proof.
  cbv zeta. intros Hne.
  destruct (receiver_route_cases mg z v) as [H|(Hc & Hv & Hr & Ho & _)];
    [contradiction|].
  split; apply in_route_order, in_open_nodes; split; auto.
  unfold is_core in Hc. destruct (status mg v); simpl in *; congruence.
Qed.

Lemma own_areas_length (mg : RasterModelGrid) :
  length (own_areas mg) = number_of_nodes mg.
Proof. unfold own_areas. rewrite length_map, length_seq. reflexivity. Qed.

Lemma accumulate_elsewhere (rcv : list nat) (order : list nat) (v : nat) :
  (forall u, In u order -> receiver rcv u <> u -> receiver rcv u <> v) ->
  forall acc, at_ (accumulate rcv order acc) v = at_ acc v.
Proof.
  unfold accumulate. induction order as [|u order IH]; intros H acc;
    cbn [fold_left]; [reflexivity|].
  rewrite IH by (intros w Hw; apply H; right; exact Hw).
  unfold pass_down. destruct (Nat.eqb_spec (receiver rcv u) u) as [_|Hne];
    [reflexivity|].
  apply at_upd_ne. apply H; [left; reflexivity|exact Hne].
Qed.

Lemma closed_holds_no_area (mg : RasterModelGrid) (z : array) (v : nat) :
  status mg v = BC_NODE_IS_CLOSED ->
  at_ (drainage_area (FlowRouter_route mg z)) v = 0.
Proof.
  intros Hcl. cbn [FlowRouter_route drainage_area].
  rewrite accumulate_elsewhere.
  - unfold at_, own_areas.
    destruct (Nat.lt_ge_cases v (number_of_nodes mg)) as [Hlt|Hge].
    + rewrite (nth_indep _ 0 (cell_area mg 0))
        by (rewrite length_map, length_seq; exact Hlt).
      rewrite map_nth, seq_nth by exact Hlt.
      unfold cell_area. cbn [Nat.add]. rewrite Hcl. reflexivity.
    + apply nth_overflow. rewrite length_map, length_seq; exact Hge.
  - intros u _ Hne Heq.
    destruct (receiver_route_cases mg z u) as [H|(_ & _ & _ & Ho & _)];
      [contradiction|].
    change (map (receiver_of mg z) (seq 0 (number_of_nodes mg)))
      with (flow__receiver_node (FlowRouter_route mg z)) in Heq.
    rewrite Heq, Hcl in Ho. discriminate.
Qed.

Lemma sum_steps_zero (l : list nat) : sum_steps (fun _ => 0) l == 0.
Proof. induction l as [|x l IH]; simpl; [reflexivity|]. rewrite IH. lra. Qed.

Lemma outlets_sum (mg : RasterModelGrid) (z : array) :
  let ff := FlowRouter_route mg z in
  sum_steps (fun v => if (receiver (flow__receiver_node ff) v =? v)%nat
                      then at_ (drainage_area ff) v else 0)
            (seq 0 (number_of_nodes mg))
  == total_domain_area mg.
Proof.
  cbv zeta.
  set (ff := FlowRouter_route mg z).
  set (rcv := flow__receiver_node ff).
  set (n := number_of_nodes mg).
  transitivity (held_area rcv [] (drainage_area ff) n).
  { unfold held_area. apply sum_steps_ext. intros u _.
    unfold holds_area. cbn [existsb]. rewrite orb_false_r. reflexivity. }
  change (drainage_area ff)
    with (accumulate rcv (flow__upstream_node_order ff) (own_areas mg)).
  rewrite (accumulate_keeps_held_area rcv z n).
  - unfold held_area, total_domain_area, sum_over. fold n.
    change (fold_right (fun v acc => at_ (own_areas mg) v + acc) 0 (seq 0 n))
      with (sum_steps (at_ (own_areas mg)) (seq 0 n)).
    apply sum_steps_ext. intros u Hu. apply in_seq in Hu.
    unfold holds_area.
    destruct (Nat.eqb_spec (receiver rcv u) u) as [Hroot|Hne]; [reflexivity|].
    destruct (route_receiver_waits mg z u Hne) as [Hin _].
    apply existsb_eqb_in in Hin. fold ff in Hin. rewrite Hin. reflexivity.
  - intros v Hne. apply (route_links_descend mg z v Hne).
  - apply route_order_NoDup.
  - apply sort_decreasing_descending.
  - intros v Hv. apply in_route_order, in_open_nodes in Hv. apply Hv.
  - intros v _ Hne. left. apply (route_receiver_waits mg z v Hne).
  - apply own_areas_length.
Qed.

(** C8. The drainage areas the router leaves at the nodes that are their
    own receiver add up to the total domain area, each open cell being
    counted once; CLOSED nodes hold none of it; and when a single open node
    is its own receiver, that outlet holds the whole domain area. *)
Theorem outlets_hold_domain_area (mg : RasterModelGrid) (z : array) :
  let ff := FlowRouter_route mg z in
  sum_over (drainage_area ff) (outlets mg ff) == total_domain_area mg /\
  (forall v, status mg v = BC_NODE_IS_CLOSED ->
     at_ (drainage_area ff) v == 0) /\
  (forall o, (o < number_of_nodes mg)%nat ->
     receiver (flow__receiver_node ff) o = o ->
     (forall v, (v < number_of_nodes mg)%nat ->
        receiver (flow__receiver_node ff) v = v -> v <> o ->
        status mg v = BC_NODE_IS_CLOSED) ->
     at_ (drainage_area ff) o == total_domain_area mg).
Proof.
  cbv zeta. split; [|split].
  - unfold outlets. rewrite sum_over_filter. apply outlets_sum.
  - intros v Hcl. rewrite (closed_holds_no_area mg z v Hcl). reflexivity.
  - intros o Ho Hroot Hsingle.
    rewrite <- (outlets_sum mg z). cbv zeta.
    set (ff := FlowRouter_route mg z) in *.
    set (g := fun v => if (receiver (flow__receiver_node ff) v =? v)%nat
                       then at_ (drainage_area ff) v else 0).
    rewrite (sum_steps_change (fun _ => 0) g (seq 0 (number_of_nodes mg)) o).
    + rewrite sum_steps_zero. unfold g. rewrite Hroot, Nat.eqb_refl. lra.
    + apply seq_NoDup.
    + apply in_seq; lia.
    + intros u Hu Hne. apply in_seq in Hu. unfold g.
      destruct (Nat.eqb_spec (receiver (flow__receiver_node ff) u) u)
        as [Hr|_]; [|reflexivity].
      unfold ff. rewrite (closed_holds_no_area mg z u); [reflexivity|].
      apply Hsingle; auto. lia.
Qed.

(** ** Fluvial erosion *)

Section Fluvial.

Variable R : RealKernel.
Variable mg : RasterModelGrid.
Variables K m n thr dt : Q.
Variable ff : FlowField.
Variable z : array.

Lemma erode_node_length (znew : array) (v : nat) :
  length (erode_node R mg K m n thr dt ff z znew v) = length znew.
Proof.
  unfold erode_node.
  destruct (is_core mg v && negb (receiver (flow__receiver_node ff) v =? v)%nat);
    [|reflexivity].
  destruct (Qle_bool _ thr); [reflexivity|apply upd_length].
Qed.

Lemma erode_node_elsewhere (znew : array) (v u : nat) :
  u <> v -> at_ (erode_node R mg K m n thr dt ff z znew v) u = at_ znew u.
Proof.
  intros Hne. unfold erode_node.
  destruct (is_core mg v && negb (receiver (flow__receiver_node ff) v =? v)%nat);
    [|reflexivity].
  destruct (Qle_bool _ thr); [reflexivity|].
  apply at_upd_ne. intros E; apply Hne; symmetry; exact E.
Qed.

Lemma sweep_length (l : list nat) (znew : array) :
  length (fold_left (erode_node R mg K m n thr dt ff z) l znew) = length znew.
Proof.
  revert znew; induction l as [|v l IH]; intros znew; simpl; [reflexivity|].
  rewrite IH. apply erode_node_length.
Qed.

Lemma sweep_elsewhere (l : list nat) (znew : array) (u : nat) :
  ~ In u l ->
  at_ (fold_left (erode_node R mg K m n thr dt ff z) l znew) u = at_ znew u.
Proof.
  revert znew; induction l as [|v l IH]; intros znew Hu; simpl; [reflexivity|].
  rewrite IH by (intros F; apply Hu; right; exact F).
  apply erode_node_elsewhere. intros ->; apply Hu; left; reflexivity.
Qed.

(** A node that is not CORE, or is its own receiver, is left alone. *)
Lemma erode_node_skips (znew : array) (v : nat) :
  is_core mg v && negb (receiver (flow__receiver_node ff) v =? v)%nat = false ->
  erode_node R mg K m n thr dt ff z znew v = znew.
Proof. intros H. unfold erode_node. rewrite H. reflexivity. Qed.

(** A node under the threshold is left alone. *)
Lemma erode_node_gated (znew : array) (v : nat) :
  node_stream_power R mg K m n ff z znew v <= thr ->
  erode_node R mg K m n thr dt ff z znew v = znew.
Proof.
  intros H. unfold erode_node.
  destruct (is_core mg v && negb (receiver (flow__receiver_node ff) v =? v)%nat);
    [|reflexivity].
  apply Qle_bool_iff in H. rewrite H. reflexivity.
Qed.

(** The stream power at [v] looks at the new elevations only through the
    receiver of [v]. *)
Lemma node_stream_power_ext (znew znew' : array) (v : nat) :
  at_ znew (receiver (flow__receiver_node ff) v)
    = at_ znew' (receiver (flow__receiver_node ff) v) ->
  node_stream_power R mg K m n ff z znew v
    = node_stream_power R mg K m n ff z znew' v.
Proof. intros H. unfold node_stream_power. rewrite H. reflexivity. Qed.

End Fluvial.

Lemma descending_before (z : array) (l1 l2 : list nat) (v : nat) :
  descending z (l1 ++ v :: l2) -> Forall (fun u => at_ z v <= at_ z u) l1.
Proof.
  unfold descending. induction l1 as [|x l1 IH]; intros H; simpl in *;
    [constructor|].
  apply StronglySorted_inv in H. destruct H as [Hs Hall].
  constructor; [|apply IH; exact Hs].
  rewrite Forall_forall in Hall. apply Hall. apply in_elt.
Qed.

Lemma NoDup_split (l1 l2 : list nat) (v : nat) :
  NoDup (l1 ++ v :: l2) -> ~ In v l1 /\ ~ In v l2.
Proof.
  intros H. apply NoDup_remove_2 in H.
  split; intros F; apply H; apply in_or_app; auto.
Qed.

Lemma FluvialSolver_step_length (R : RealKernel) (mg : RasterModelGrid)
    (K m n thr dt : Q) (ff : FlowField) (z : array) :
  length (FluvialSolver_step R mg K m n thr dt ff z) = length z.
Proof. unfold FluvialSolver_step. apply sweep_length. Qed.

(** C6. A node whose computed stream power does not exceed the threshold
    keeps its elevation through the fluvial step: its delta is zero. *)
Theorem below_threshold_no_erosion (R : RealKernel) (mg : RasterModelGrid)
    (K m n thr dt : Q) (z0 z : array) (v : nat) :
  let ff := FlowRouter_route mg z0 in
  let znew := FluvialSolver_step R mg K m n thr dt ff z in
  node_stream_power R mg K m n ff z znew v <= thr ->
  at_ znew v = at_ z v /\
  at_ (FluvialSolver_deltas R mg K m n thr dt ff z) v == 0.
Proof.
  cbv zeta. set (ff := FlowRouter_route mg z0). intros Hsp.
  assert (Hkeep : at_ (FluvialSolver_step R mg K m n thr dt ff z) v = at_ z v).
  { revert Hsp. unfold FluvialSolver_step.
    set (sweep := fold_left (erode_node R mg K m n thr dt ff z)).
    set (order := flow__upstream_node_order ff). intros Hsp.
    destruct (in_dec Nat.eq_dec v (rev order)) as [Hin|Hout].
    2:{ apply sweep_elsewhere; exact Hout. }
    apply in_split in Hin. destruct Hin as (l1 & l2 & Hrev).
    assert (Hnd : NoDup (l1 ++ v :: l2)).
    { rewrite <- Hrev. apply NoDup_rev. apply route_order_NoDup. }
    destruct (NoDup_split _ _ _ Hnd) as [Hv1 Hv2].
    rewrite Hrev in *. unfold sweep in *. rewrite fold_left_app in *.
    cbn [fold_left] in *.
    set (z1 := fold_left (erode_node R mg K m n thr dt ff z) l1 z) in *.
    rewrite sweep_elsewhere by exact Hv2.
    assert (Hz1 : at_ z1 v = at_ z v) by (apply sweep_elsewhere; exact Hv1).
    destruct (is_core mg v
              && negb (receiver (flow__receiver_node ff) v =? v)%nat) eqn:Hact.
    2:{ rewrite erode_node_skips by exact Hact. exact Hz1. }
    apply andb_true_iff in Hact. destruct Hact as [_ Hne].
    apply negb_true_iff, Nat.eqb_neq in Hne.
    set (r := receiver (flow__receiver_node ff) v) in *.
    assert (Hr2 : ~ In r l2).
    { intros Hin.
      assert (Hord : order = rev l2 ++ v :: rev l1).
      { rewrite <- (rev_involutive order), Hrev, rev_app_distr. simpl.
        rewrite <- app_assoc. reflexivity. }
      pose proof (sort_decreasing_descending z0 (open_nodes mg)) as Hdesc.
      change (sort_decreasing z0 (open_nodes mg)) with order in Hdesc.
      rewrite Hord in Hdesc. apply descending_before in Hdesc.
      rewrite Forall_forall in Hdesc.
      specialize (Hdesc r (proj1 (in_rev l2 r) Hin)).
      destruct (route_links_descend mg z0 v Hne) as [Hlt _].
      fold ff in Hlt. fold r in Hlt.
      apply Qle_not_lt in Hdesc. contradiction. }
    rewrite erode_node_gated; [exact Hz1|].
    match type of Hsp with
    | node_stream_power _ _ _ _ _ _ _ ?zf _ <= _ =>
        rewrite (node_stream_power_ext R mg K m n ff z z1 zf v); [exact Hsp|]
    end.
    fold r. rewrite sweep_elsewhere by exact Hr2.
    symmetry. apply erode_node_elsewhere. exact Hne. }
  split; [exact Hkeep|].
  unfold FluvialSolver_deltas.
  rewrite at_isub by apply FluvialSolver_step_length.
  rewrite Hkeep. lra.
Qed.

(** ** Diffusion *)

Lemma coupling_nonneg (r : Q) (nb : option NodeStatus) :
  0 <= r -> 0 <= coupling r nb.
Proof.
  intros Hr. destruct nb as [[| |]|]; simpl; auto; apply Qle_refl.
Qed.

(** One elimination step on a row that the constant [h] satisfies, with a
    dominant diagonal: the pivot is positive and the reduced row is again
    satisfied by [h]. *)
Lemma eliminate_step (a b c d cp dp h : Q) :
  a <= 0 -> c <= 0 -> b == 1 - a - c -> d == h ->
  -1 <= cp -> cp <= 0 ->
  a * (dp - h * (1 + cp)) == 0 ->
  let piv := b - a * cp in
  0 < piv /\ -1 <= c / piv /\ c / piv <= 0 /\
  (d - a * dp) / piv == h * (1 + c / piv).
Proof.
  intros Ha Hc Hb Hd Hcp1 Hcp2 Hprev piv.
  assert (Hpiv : 1 - c <= piv).
  { unfold piv. rewrite Hb.
    assert (0 <= (- a) * (1 + cp)) by (apply Qmult_le_0_compat; lra).
    lra. }
  assert (Hpos : 0 < piv) by lra.
  split; [exact Hpos|]. split; [|split].
  - apply Qle_shift_div_l; [exact Hpos|]. lra.
  - apply Qle_shift_div_r; [exact Hpos|]. lra.
  - assert (Hnum : d - a * dp == h * (piv + c)).
    { unfold piv. rewrite Hb, Hd. lra. }
    rewrite Hnum. field. intros F. rewrite F in Hpos. apply Qlt_irrefl in Hpos.
    exact Hpos.
Qed.

Lemma back_substitute_length (cds : list (Q * Q)) :
  length (back_substitute cds) = length cds.
Proof.
  induction cds as [|[c' d'] rest IH]; simpl; [reflexivity|].
  rewrite IH; reflexivity.
Qed.

Lemma eliminate_length (prev : Q * Q) (rows : list trirow) :
  length (eliminate prev rows) = length rows.
Proof.
  revert prev; induction rows as [|[[[a b] c] d] rest IH]; intros prev; simpl;
    [reflexivity|].
  rewrite IH; reflexivity.
Qed.

Lemma assemble_length (r : Q) (prev : option NodeStatus)
    (line : list (NodeStatus * Q)) :
  length (assemble r prev line) = length line.
Proof.
  revert prev; induction line as [|[s zj] rest IH]; intros prev; simpl;
    [reflexivity|].
  rewrite IH; reflexivity.
Qed.

Lemma tridiagonal_solve_length (r : Q) (line : list (NodeStatus * Q)) :
  length (tridiagonal_solve (assemble r None line)) = length line.
Proof.
  unfold tridiagonal_solve.
  rewrite back_substitute_length, eliminate_length, assemble_length.
  reflexivity.
Qed.

(** Along a flat line the direct solve returns the same constant. *)
Lemma flat_line_solution (r h : Q) :
  0 <= r ->
  forall (line : list (NodeStatus * Q)) (prevs : option NodeStatus)
         (prev : Q * Q),
    Forall (fun sz => snd sz == h) line ->
    -1 <= fst prev -> fst prev <= 0 ->
    coupling r prevs * (snd prev - h * (1 + fst prev)) == 0 ->
    Forall (fun x => x == h)
           (back_substitute (eliminate prev (assemble r prevs line))).
Proof.
  intros Hr. induction line as [|[s zj] rest IH];
    intros prevs [cp dp] Hflat Hcp1 Hcp2 Hprev; [constructor|].
  apply Forall_cons_iff in Hflat. destruct Hflat as [Hz Hrest].
  cbn [snd fst] in *.
  cbn [assemble].
  set (row := match s with
              | BC_NODE_IS_CORE =>
                  (- coupling r prevs,
                   1 + coupling r prevs + coupling r (next_status rest),
                   - coupling r (next_status rest), zj)
              | _ => (0, 1, 0, zj)
              end).
  assert (Hrow : exists a b c d, row = (a, b, c, d) /\
            a <= 0 /\ c <= 0 /\ b == 1 - a - c /\ d == h /\
            a * (dp - h * (1 + cp)) == 0 /\
            (rest = [] -> c == 0)).
  { pose proof (coupling_nonneg r prevs Hr) as Hka.
    pose proof (coupling_nonneg r (next_status rest) Hr) as Hkc.
    destruct s; unfold row; do 4 eexists; (split; [reflexivity|]);
      repeat split; try lra; try (intros ->; simpl; reflexivity). }
  destruct Hrow as (a & b & c & d & Erow & Ha & Hc & Hb & Hd & Hp & Hlast).
  rewrite Erow. cbn [eliminate fst snd back_substitute].
  destruct (eliminate_step a b c d cp dp h Ha Hc Hb Hd Hcp1 Hcp2 Hp)
    as (Hpos & Hc1 & Hc2 & Hd').
  set (c' := Qred (c / (b - a * cp))).
  set (d' := Qred ((d - a * dp) / (b - a * cp))).
  assert (Ec' : c' == c / (b - a * cp)) by apply Qred_correct.
  assert (Ed' : d' == (d - a * dp) / (b - a * cp)) by apply Qred_correct.
  clearbody c' d'.
  assert (Htail : Forall (fun x => x == h)
            (back_substitute (eliminate (c', d') (assemble r (Some s) rest)))).
  { apply IH; cbn [fst snd]; try exact Hrest.
    - rewrite Ec'; exact Hc1.
    - rewrite Ec'; exact Hc2.
    - rewrite Ec', Ed', Hd'. ring. }
  constructor; [|exact Htail].
  rewrite Qred_correct.
  destruct rest as [|[s1 z1] rest1].
  - cbn. rewrite Ed', Hd', Ec'.
    rewrite (Hlast eq_refl). unfold Qdiv. ring.
  - remember (back_substitute
                (eliminate (c', d') (assemble r (Some s) ((s1, z1) :: rest1))))
      as xs eqn:Exs.
    destruct xs as [|x xs'].
    + apply (f_equal (@length Q)) in Exs.
      rewrite back_substitute_length, eliminate_length, assemble_length in Exs.
      discriminate.
    + apply Forall_cons_iff in Htail. destruct Htail as [Hx _].
      cbn [hd]. rewrite Hx, Ed', Hd', Ec'. ring.
Qed.

Lemma Forall_map2 {A B : Type} (P : Q -> Prop) (f : A -> B -> Q)
    (l1 : list A) (l2 : list B) :
  (forall x y, In x l1 -> In y l2 -> P (f x y)) -> Forall P (map2 f l1 l2).
Proof.
  revert l2; induction l1 as [|x l1 IH]; intros [|y l2] H; simpl; constructor.
  - apply H; left; reflexivity.
  - apply IH. intros x' y' Hx Hy. apply H; right; assumption.
Qed.

Lemma solve_line_flat (r h : Q) (line : list (NodeStatus * Q)) :
  0 <= r -> Forall (fun sz => snd sz == h) line ->
  Forall (fun x => x == h) (solve_line r line).
Proof.
  intros Hr Hflat. unfold solve_line, tridiagonal_solve.
  assert (Hsol := flat_line_solution r h Hr line None (0, 0) Hflat).
  cbn [fst snd coupling] in Hsol.
  assert (Hs : Forall (fun x => x == h)
                 (back_substitute (eliminate (0, 0) (assemble r None line)))).
  { apply Hsol; lra. }
  rewrite Forall_forall in Hflat, Hs.
  apply Forall_map2. intros [s zj] x Hin Hx. cbn [fst snd].
  destruct s; [apply Hs; exact Hx| |]; apply (Hflat _ Hin).
Qed.

Lemma scatter_length (ids : list nat) (xs : list Q) (z : array) :
  length (scatter ids xs z) = length z.
Proof.
  revert xs z; induction ids as [|v ids IH]; intros [|x xs] z; simpl; auto.
  rewrite IH. apply upd_length.
Qed.

Lemma upd_flat (h : Q) (v : nat) (x : Q) (z : array) :
  flat h z -> x == h -> flat h (upd v x z).
Proof.
  intros Hz Hx u Hu. rewrite upd_length in Hu.
  destruct (Nat.eq_dec v u) as [->|Hne].
  - rewrite at_upd_eq by exact Hu. exact Hx.
  - rewrite at_upd_ne by exact Hne. apply Hz; exact Hu.
Qed.

Lemma scatter_flat (h : Q) (ids : list nat) (xs : list Q) (z : array) :
  flat h z -> Forall (fun x => x == h) xs -> flat h (scatter ids xs z).
Proof.
  revert xs z; induction ids as [|v ids IH]; intros [|x xs] z Hz Hxs; simpl; auto.
  apply Forall_cons_iff in Hxs. destruct Hxs as [Hx Hxs].
  apply IH; [apply upd_flat; assumption|exact Hxs].
Qed.

Section DiffusionLines.

Variable mg : RasterModelGrid.
Variable r : Q.

Lemma diffuse_line_length (z : array) (ids : list nat) :
  length (diffuse_line mg r z ids) = length z.
Proof. unfold diffuse_line. apply scatter_length. Qed.

Lemma diffuse_lines_length (lines : list (list nat)) (z : array) :
  length (fold_left (diffuse_line mg r) lines z) = length z.
Proof.
  revert z; induction lines as [|ids lines IH]; intros z; simpl; auto.
  rewrite IH. apply diffuse_line_length.
Qed.

(** The values written back at a node that is not CORE are its own. *)
Lemma scatter_keeps_boundary (zc : array) (v : nat) :
  status mg v <> BC_NODE_IS_CORE ->
  forall (ids : list nat) (sol : list Q) (z : array),
    at_ z v = at_ zc v ->
    at_ (scatter ids
           (map2 (fun sz x => match fst sz with
                              | BC_NODE_IS_CORE => x
                              | _ => snd sz
                              end)
                 (map (fun u => (status mg u, at_ zc u)) ids) sol)
           z) v
    = at_ zc v.
Proof.
  intros Hnc. induction ids as [|u ids IH]; intros [|x sol] z Hz; simpl; auto.
  apply IH.
  destruct (Nat.eq_dec u v) as [->|Hne].
  - destruct (status mg v) eqn:Es; [contradiction| |].
    + destruct (Nat.lt_ge_cases v (length z)) as [Hlt|Hge].
      * apply at_upd_eq; exact Hlt.
      * unfold at_ at 1. rewrite nth_overflow by (rewrite upd_length; exact Hge).
        unfold at_ in Hz. rewrite nth_overflow in Hz by exact Hge. exact Hz.
    + destruct (Nat.lt_ge_cases v (length z)) as [Hlt|Hge].
      * apply at_upd_eq; exact Hlt.
      * unfold at_ at 1. rewrite nth_overflow by (rewrite upd_length; exact Hge).
        unfold at_ in Hz. rewrite nth_overflow in Hz by exact Hge. exact Hz.
  - rewrite at_upd_ne by exact Hne. exact Hz.
Qed.

Lemma diffuse_line_keeps_boundary (z : array) (ids : list nat) (v : nat) :
  status mg v <> BC_NODE_IS_CORE ->
  at_ (diffuse_line mg r z ids) v = at_ z v.
Proof.
  intros Hnc. unfold diffuse_line, solve_line.
  apply scatter_keeps_boundary; [exact Hnc|reflexivity].
Qed.

Lemma diffuse_lines_keep_boundary (lines : list (list nat)) (z : array)
    (v : nat) :
  status mg v <> BC_NODE_IS_CORE ->
  at_ (fold_left (diffuse_line mg r) lines z) v = at_ z v.
Proof.
  intros Hnc. revert z; induction lines as [|ids lines IH]; intros z; simpl; auto.
  rewrite IH. apply diffuse_line_keeps_boundary; exact Hnc.
Qed.

Hypothesis r_nonneg : 0 <= r.

Lemma diffuse_line_flat (h : Q) (z : array) (ids : list nat) :
  flat h z -> Forall (fun v => (v < length z)%nat) ids ->
  flat h (diffuse_line mg r z ids).
Proof.
  intros Hz Hids. unfold diffuse_line. apply scatter_flat; [exact Hz|].
  apply solve_line_flat; [exact r_nonneg|].
  apply Forall_map. cbn [snd].
  eapply Forall_impl; [|exact Hids]. intros v Hv. apply Hz; exact Hv.
Qed.

Lemma diffuse_lines_flat (h : Q) (lines : list (list nat)) (z : array) :
  flat h z ->
  Forall (Forall (fun v => (v < length z)%nat)) lines ->
  flat h (fold_left (diffuse_line mg r) lines z).
Proof.
  revert z; induction lines as [|ids lines IH]; intros z Hz Hl; simpl; auto.
  apply Forall_cons_iff in Hl. destruct Hl as [Hids Hl].
  apply IH.
  - apply diffuse_line_flat; assumption.
  - rewrite diffuse_line_length. exact Hl.
Qed.

End DiffusionLines.

Lemma grid_rows_bound (mg : RasterModelGrid) :
  Forall (Forall (fun v => (v < number_of_nodes mg)%nat)) (grid_rows mg).
Proof.
  unfold grid_rows, number_of_nodes. apply Forall_map, Forall_forall.
  intros r Hr. apply in_seq in Hr. apply Forall_map, Forall_forall.
  intros c Hc. apply in_seq in Hc. nia.
Qed.

Lemma grid_columns_bound (mg : RasterModelGrid) :
  Forall (Forall (fun v => (v < number_of_nodes mg)%nat)) (grid_columns mg).
Proof.
  unfold grid_columns, number_of_nodes. apply Forall_map, Forall_forall.
  intros c Hc. apply in_seq in Hc. apply Forall_map, Forall_forall.
  intros r Hr. apply in_seq in Hr. nia.
Qed.

Lemma diffusion_number_nonneg (mg : RasterModelGrid) (Dc dtc : Q) :
  0 <= Dc -> 0 <= dtc -> 0 <= Dc * dtc / (grid_dx mg * grid_dx mg).
Proof.
  intros HD Hdt. unfold Qdiv. apply Qmult_le_0_compat.
  - apply Qmult_le_0_compat; assumption.
  - apply Qinv_le_0_compat. nra.
Qed.

Lemma DiffusionSolver_step_length (mg : RasterModelGrid) (Dc dtc : Q) (z : array) :
  length (DiffusionSolver_step mg Dc dtc z) = length z.
Proof.
  unfold DiffusionSolver_step. rewrite !diffuse_lines_length. reflexivity.
Qed.

Lemma DiffusionSolver_step_keeps_boundary (mg : RasterModelGrid) (Dc dtc : Q)
    (z : array) (v : nat) :
  status mg v <> BC_NODE_IS_CORE ->
  at_ (DiffusionSolver_step mg Dc dtc z) v = at_ z v.
Proof.
  intros Hnc. unfold DiffusionSolver_step.
  rewrite !diffuse_lines_keep_boundary by exact Hnc. reflexivity.
Qed.

Lemma DiffusionSolver_step_flat (mg : RasterModelGrid) (Dc dtc h : Q) (z : array) :
  0 <= Dc -> 0 <= dtc -> length z = number_of_nodes mg ->
  flat h z -> flat h (DiffusionSolver_step mg Dc dtc z).
Proof.
  intros HD Hdt Hlen Hz. unfold DiffusionSolver_step.
  pose proof (diffusion_number_nonneg mg Dc dtc HD Hdt) as Hr.
  apply diffuse_lines_flat; [exact Hr| |].
  - apply diffuse_lines_flat; [exact Hr|exact Hz|].
    rewrite Hlen. apply grid_rows_bound.
  - rewrite diffuse_lines_length, Hlen. apply grid_columns_bound.
Qed.

Lemma flat_arr_eq (h : Q) (a b : array) :
  length a = length b -> flat h a -> flat h b -> arr_eq a b.
Proof.
  intros Hlen Ha Hb. split; [exact Hlen|]. intros v.
  destruct (Nat.lt_ge_cases v (length a)) as [Hlt|Hge].
  - rewrite (Ha v Hlt), (Hb v); [reflexivity|]. rewrite <- Hlen; exact Hlt.
  - unfold at_. rewrite !nth_overflow; [reflexivity| |]; lia.
Qed.

Lemma iterate_diffusion_flat (mg : RasterModelGrid) (Dc dtc h : Q) (k : nat) :
  0 <= Dc -> 0 <= dtc ->
  forall z, length z = number_of_nodes mg -> flat h z ->
    length (iterate k (DiffusionSolver_step mg Dc dtc) z) = length z /\
    flat h (iterate k (DiffusionSolver_step mg Dc dtc) z).
Proof.
  intros HD Hdt. induction k as [|k IH]; intros z Hlen Hz; simpl.
  - split; [reflexivity|exact Hz].
  - destruct (IH (DiffusionSolver_step mg Dc dtc z)) as [Hl Hf].
    + rewrite DiffusionSolver_step_length; exact Hlen.
    + apply DiffusionSolver_step_flat; assumption.
    + split; [|exact Hf].
      rewrite Hl. apply DiffusionSolver_step_length.
Qed.

(** C5. A flat field is a fixed point of the diffusion step: for any
    diffusivity [D >= 0] and any [dt > 0], any number of steps leaves every
    elevation as it was. *)
Theorem flat_field_is_fixed_point (mg : RasterModelGrid) (Dc dtc h : Q)
    (z : array) (k : nat) :
  0 <= Dc -> 0 < dtc ->
  length z = number_of_nodes mg -> flat h z ->
  arr_eq (iterate k (DiffusionSolver_step mg Dc dtc) z) z.
Proof.
  intros HD Hdt Hlen Hz.
  destruct (iterate_diffusion_flat mg Dc dtc h k HD (Qlt_le_weak _ _ Hdt) z Hlen Hz)
    as [Hl Hf].
  apply (flat_arr_eq h); assumption.
Qed.

(** ** The ledger *)

Lemma window_length_upto (k : nat) :
  length (filter (fun i => (900 <? i)%nat) (seq 0 k)) = (k - 901)%nat.
Proof.
  induction k as [|k IH]; [reflexivity|].
  rewrite filter_seq_S, length_app, IH.
  destruct (Nat.ltb_spec 900 k); simpl; lia.
Qed.

Lemma window_length (n : nat) : length (window n) = (n - 900)%nat.
Proof. unfold window. rewrite window_length_upto. lia. Qed.

Lemma in_window (n i : nat) : In i (window n) <-> (900 < i <= n)%nat.
Proof.
  unfold window. rewrite filter_In, in_seq, Nat.ltb_lt. lia.
Qed.

Lemma reset_total_zero (m : Model) (v : nat) :
  at_ (t_erode_dep (reset_total m)) v == 0.
Proof.
  cbn [reset_total t_erode_dep]. rewrite at_isub by reflexivity. lra.
Qed.

(** The running total at the end of the loop, before the final scaling. *)
Lemma total_before_scaling (C : Components) (mg : RasterModelGrid)
    (s : Settings) (n : nat) (m : Model) (v : nat) :
  (forall z, length (LinearDiffuser C mg (D s) (dtQ s) z) = length z) ->
  (forall ff z,
     length (FastscapeEroder C mg (Ksp s) (1 # 2) 1 (threshold s) (dtQ s) ff z)
     = length z) ->
  length (erode_dep m) = length (topographic__elevation m) ->
  length (t_erode_dep m) = length (topographic__elevation m) ->
  at_ (t_erode_dep (run_steps C mg s (n + 1) (reset_total m))) v
  == sum_steps (fun i => step_change C mg s (topographic__elevation m) i v)
               (window n).
Proof.
  intros Hd He Hle Hlt.
  destruct (run_steps_ledger C mg s Hd He (n + 1) (reset_total m))
    as (_ & _ & Hv).
  - exact Hle.
  - cbn [reset_total t_erode_dep topographic__elevation].
    unfold isub. rewrite map2_length; auto.
  - rewrite Hv, reset_total_zero. cbn [reset_total topographic__elevation].
    unfold window. lra.
Qed.

(** C3, as the script has it.  The reported rate is 0.001 times the sum,
    over the passes with counter above 900 (there are [n - 900] of them for
    loop bound [n]), of the elevation before the diffusion and fluvial
    updates of the pass minus the elevation after them; the uplift of a pass
    is added after that difference is taken.  The factor is the reciprocal of
    the window's duration exactly when that duration is 1000. *)
Theorem reported_rate_is_scaled_window_sum (C : Components)
    (mg : RasterModelGrid) (s : Settings) (n : nat) (m : Model) (v : nat) :
  (forall z, length (LinearDiffuser C mg (D s) (dtQ s) z) = length z) ->
  (forall ff z,
     length (FastscapeEroder C mg (Ksp s) (1 # 2) 1 (threshold s) (dtQ s) ff z)
     = length z) ->
  length (erode_dep m) = length (topographic__elevation m) ->
  length (t_erode_dep m) = length (topographic__elevation m) ->
  let z0 := topographic__elevation m in
  reported_rate C mg s n m v
    == (1 # 1000) * sum_steps (fun i => step_change C mg s z0 i v) (window n) /\
  length (window n) = (n - 900)%nat /\
  (forall i, In i (window n) <-> (900 < i <= n)%nat) /\
  (window_duration s n == 1000 ->
     reported_rate C mg s n m v == window_average C mg s n z0 v) /\
  (forall i,
     elevation_at_pass C mg s (S i) z0
     = add_at (core_nodes mg) (uplift_per_step s)
              (after_processes C mg s (elevation_at_pass C mg s i z0))).
Proof.
  intros Hd He Hle Hlt z0.
  assert (Hrate : reported_rate C mg s n m v
            == (1 # 1000)
               * sum_steps (fun i => step_change C mg s z0 i v) (window n)).
  { unfold reported_rate, simulation. cbn [scale_total t_erode_dep].
    rewrite at_scale, (total_before_scaling C mg s n m v Hd He Hle Hlt).
    fold z0. ring. }
  split; [exact Hrate|]. split; [apply window_length|].
  split; [apply in_window|]. split; [|reflexivity].
  intros Hdur. rewrite Hrate. unfold window_average. rewrite Hdur.
  field.
Qed.

(** C10. Inside the window each pass contributes the elevation before its
    diffusion and fluvial updates minus the elevation after them, so a net
    loss of elevation counts positive and a net gain negative; the total
    before scaling is the sum of these contributions, and the final factor
    0.001 keeps the sign. *)
Theorem ledger_counts_erosion_positive (C : Components)
    (mg : RasterModelGrid) (s : Settings) (n : nat) (m : Model) (v : nat) :
  (forall z, length (LinearDiffuser C mg (D s) (dtQ s) z) = length z) ->
  (forall ff z,
     length (FastscapeEroder C mg (Ksp s) (1 # 2) 1 (threshold s) (dtQ s) ff z)
     = length z) ->
  length (erode_dep m) = length (topographic__elevation m) ->
  length (t_erode_dep m) = length (topographic__elevation m) ->
  let z0 := topographic__elevation m in
  let before i := at_ (elevation_at_pass C mg s i z0) v in
  let after i := at_ (after_processes C mg s (elevation_at_pass C mg s i z0)) v in
  (forall i, (900 < i)%nat ->
     at_ (erode_dep (run_steps C mg s (S i) (reset_total m))) v
     == before i - after i) /\
  at_ (t_erode_dep (run_steps C mg s (n + 1) (reset_total m))) v
    == sum_steps (fun i => before i - after i) (window n) /\
  reported_rate C mg s n m v
    == (1 # 1000) * sum_steps (fun i => before i - after i) (window n) /\
  (forall i, after i < before i -> 0 < before i - after i) /\
  (forall i, before i < after i -> before i - after i < 0).
Proof.
  intros Hd He Hle Hlt z0 before after.
  assert (Htot := total_before_scaling C mg s n m v Hd He Hle Hlt).
  split; [|split; [exact Htot|split; [|split; intros i Hi; lra]]].
  - intros i Hi. rewrite run_steps_S.
    destruct (run_steps_ledger C mg s Hd He i (reset_total m)) as (He' & Ht' & _).
    + exact Hle.
    + cbn [reset_total t_erode_dep topographic__elevation].
      unfold isub. rewrite map2_length; auto.
    + assert (Hz : topographic__elevation (run_steps C mg s i (reset_total m))
                   = elevation_at_pass C mg s i z0)
        by apply run_steps_elevation.
      assert (Hzl : length (elevation_at_pass C mg s i z0) = length z0)
        by (apply elevation_at_pass_length; assumption).
      cbn [reset_total topographic__elevation] in He', Ht'. fold z0 in He', Ht'.
      destruct (loop_body_ledger C mg s Hd He i
                  (run_steps C mg s i (reset_total m))) as (_ & _ & Hv).
      * rewrite Hz, Hzl. exact He'.
      * rewrite Hz, Hzl. exact Ht'.
      * destruct (Hv v) as [_ Hed]. rewrite (Hed Hi), Hz. reflexivity.
  - unfold reported_rate, simulation. cbn [scale_total t_erode_dep].
    rewrite at_scale, Htot. apply Qmult_comm.
Qed.

(** ** The flat-field scenario *)

Lemma is_core_status (mg : RasterModelGrid) (v : nat) :
  is_core mg v = true <-> status mg v = BC_NODE_IS_CORE.
Proof.
  unfold is_core. destruct (status mg v); simpl; split; congruence.
Qed.

(** C2, as far as the script bears it out.  From a flat field, with an
    eroder that changes nothing (K_sp = 0) and a diffuser that keeps flat
    fields and boundary nodes, the first pass raises every CORE node by
    exactly the uplift per step and changes no other node; and however
    many passes run, the nodes that are not CORE keep their elevation. *)
Theorem flat_start_first_pass (C : Components) (mg : RasterModelGrid)
    (s : Settings) (h : Q) (m : Model) :
  let z0 := topographic__elevation m in
  let diffuse := LinearDiffuser C mg (D s) (dtQ s) in
  let erode :=
    FastscapeEroder C mg (Ksp s) (1 # 2) 1 (threshold s) (dtQ s) in
  (forall z, length (diffuse z) = length z) ->
  (forall z v, status mg v <> BC_NODE_IS_CORE -> at_ (diffuse z) v == at_ z v) ->
  (forall z, length z = length z0 -> flat h z -> flat h (diffuse z)) ->
  (forall ff z, arr_eq (erode ff z) z) ->
  length (status_at_node mg) = length z0 ->
  flat h z0 ->
  (forall v, (v < length z0)%nat ->
     at_ (topographic__elevation (run_steps C mg s 1 m)) v
     == if is_core mg v then h + uplift_per_step s else h) /\
  (forall k v, status mg v <> BC_NODE_IS_CORE ->
     at_ (topographic__elevation (run_steps C mg s k m)) v == at_ z0 v).
Proof.
  intros z0 diffuse erode Hdl Hdf Hdflat Heid Hlen Hflat.
  assert (Hafter : forall z v,
            at_ (after_processes C mg s z) v == at_ (diffuse z) v).
  { intros z v. unfold after_processes. apply (Heid _ (diffuse z)). }
  split.
  - intros v Hv. rewrite run_steps_S. change (run_steps C mg s 0 m) with m.
    rewrite loop_body_elevation. fold z0. unfold next_elevation.
    assert (Hh : at_ (after_processes C mg s z0) v == h).
    { rewrite Hafter. apply Hdflat; auto. rewrite Hdl; exact Hv. }
    destruct (is_core mg v) eqn:Hc.
    + rewrite at_add_at_in.
      * rewrite Hh. reflexivity.
      * apply core_nodes_NoDup.
      * apply in_core_nodes, is_core_status; exact Hc.
      * destruct (Heid (FlowAccumulator C mg (diffuse z0)) (diffuse z0)) as [Hl _].
        unfold after_processes. fold diffuse. fold erode. rewrite Hl, Hdl.
        exact Hv.
    + rewrite at_add_at_notin; [exact Hh|].
      rewrite in_core_nodes, <- is_core_status. congruence.
  - intros k v Hnc. induction k as [|k IH]; [reflexivity|].
    rewrite run_steps_S, loop_body_elevation. unfold next_elevation.
    rewrite at_add_at_notin by (rewrite in_core_nodes; exact Hnc).
    rewrite Hafter, (Hdf _ v Hnc). exact IH.
Qed.

(** With [K_sp = 0] and a threshold that is not negative no node reaches
    the threshold: the fluvial step returns its input. *)
Lemma FluvialSolver_step_K0 (R : RealKernel) (mg : RasterModelGrid)
    (K m n thr dt : Q) (ff : FlowField) (z : array) :
  K == 0 -> 0 <= thr -> FluvialSolver_step R mg K m n thr dt ff z = z.
Proof.
  intros HK Hthr. unfold FluvialSolver_step.
  generalize (rev (flow__upstream_node_order ff)) as l.
  assert (Hnode : forall znew v, erode_node R mg K m n thr dt ff z znew v = znew).
  { intros znew v. apply erode_node_gated.
    unfold node_stream_power, stream_power. rewrite HK.
    setoid_replace (0 * rpow R (at_ (drainage_area ff) v) m
                    * rpow R (slope (at_ z v)
                                (at_ znew (receiver (flow__receiver_node ff) v))
                                (flow_path_length R mg v
                                   (receiver (flow__receiver_node ff) v))) n)
      with 0 by ring.
    exact Hthr. }
  intros l. generalize z at 2 3 as znew.
  induction l as [|v l IH]; intros znew; simpl; [reflexivity|].
  rewrite Hnode. apply IH.
Qed.

Lemma flat_field_flat (n : nat) (h : Q) : flat h (flat_field n h).
Proof.
  intros v Hv. unfold flat_field in *. rewrite length_map, length_seq in Hv.
  unfold at_.
  assert (Hin : In (nth v (map (fun _ : nat => h) (seq 0 n)) 0)
                   (map (fun _ : nat => h) (seq 0 n))).
  { apply nth_In. rewrite length_map, length_seq; exact Hv. }
  apply in_map_iff in Hin. destruct Hin as (x & Hx & _).
  rewrite <- Hx. reflexivity.
Qed.

Lemma dtQ_nonneg (s : Settings) : 0 <= dtQ s.
Proof.
  unfold dtQ. change 0 with (inject_Z 0). rewrite <- Zle_Qle. lia.
Qed.

(** Without uplift and with [K_sp = 0] the whole loop stands still on a
    flat field: with the reference solvers it comes out of any number of
    passes as it went in. *)
Lemma flat_run_is_steady (R : RealKernel) (mg : RasterModelGrid) (s : Settings)
    (h : Q) (z : array) (k : nat) :
  0 <= D s -> Ksp s == 0 -> 0 <= threshold s -> uplift_rate s == 0 ->
  length z = number_of_nodes mg ->
  length (status_at_node mg) = length z ->
  flat h z ->
  arr_eq (elevation_at_pass (reference_components R) mg s k z) z.
Proof.
  intros HD HK Hthr Hup Hlen Hst Hz.
  assert (Hinv : length (elevation_at_pass (reference_components R) mg s k z)
                 = length z /\
                 flat h (elevation_at_pass (reference_components R) mg s k z)).
  { induction k as [|k [IHl IHf]]; [split; [reflexivity|exact Hz]|].
    cbn [elevation_at_pass]. unfold next_elevation, after_processes.
    cbn [reference_components LinearDiffuser FlowAccumulator FastscapeEroder].
    rewrite FluvialSolver_step_K0 by assumption.
    set (zk := elevation_at_pass (reference_components R) mg s k z) in *.
    assert (Hdl : length (DiffusionSolver_step mg (D s) (dtQ s) zk) = length z)
      by (rewrite DiffusionSolver_step_length; exact IHl).
    assert (Hdf : flat h (DiffusionSolver_step mg (D s) (dtQ s) zk)).
    { apply DiffusionSolver_step_flat; auto.
      - apply dtQ_nonneg.
      - rewrite IHl; exact Hlen. }
    split; [rewrite add_at_length; exact Hdl|].
    intros v Hv. rewrite add_at_length in Hv.
    destruct (in_dec Nat.eq_dec v (core_nodes mg)) as [Hin|Hout].
    - rewrite at_add_at_in; auto; [|apply core_nodes_NoDup].
      rewrite (Hdf v Hv). unfold uplift_per_step. rewrite Hup. ring.
    - rewrite at_add_at_notin by exact Hout. apply Hdf; exact Hv. }
  destruct Hinv as [Hl Hf]. apply (flat_arr_eq h); assumption.
Qed.

(** ** The reference solvers as components *)

Lemma reference_diffuser_length (mg : RasterModelGrid) (s : Settings) (z : array) :
  length (LinearDiffuser reference mg (D s) (dtQ s) z) = length z.
Proof. apply DiffusionSolver_step_length. Qed.

Lemma reference_eroder_length (mg : RasterModelGrid) (s : Settings)
    (ff : FlowField) (z : array) :
  length (FastscapeEroder reference mg (Ksp s) (1 # 2) 1 (threshold s) (dtQ s) ff z)
  = length z.
Proof. apply FluvialSolver_step_length. Qed.

(** ** Worked examples *)

Example corners_closed_after_setup_5x5 :
  status (set_boundary_status (raster 5 5 1)) 24 = BC_NODE_IS_CLOSED.
Proof.
  apply (corners_closed_after_setup (raster 5 5 1)).
  - simpl; lia.
  - simpl; lia.
  - reflexivity.
  - simpl; auto.
Defined.

Example uplift_core_only_5x5 :
  at_ (topographic__elevation
         (uplift grid_5x5 scenario_settings (initial_model (flat_field 25 100)))) 12
  = 100 + uplift_rate scenario_settings * dtQ scenario_settings.
Proof.
  apply (uplift_core_only grid_5x5 scenario_settings
           (initial_model (flat_field 25 100))).
  - reflexivity.
  - reflexivity.
Defined.

Example flat_field_is_fixed_point_5x5 :
  arr_eq (iterate 3 (DiffusionSolver_step grid_5x5 1 10) (flat_field 25 100))
         (flat_field 25 100).
Proof.
  apply (flat_field_is_fixed_point grid_5x5 1 10 100 (flat_field 25 100) 3).
  - vm_compute; discriminate.
  - reflexivity.
  - reflexivity.
  - apply flat_field_flat.
Defined.

Example below_threshold_no_erosion_3x3 :
  at_ (FluvialSolver_deltas example_kernel grid_3x3 (2 # 10000) (1 # 2) 1
         (18 # 10000) 10 (FlowRouter_route grid_3x3 bump_field) bump_field) 4
  == 0.
Proof.
  apply (below_threshold_no_erosion example_kernel grid_3x3 (2 # 10000) (1 # 2) 1
           (18 # 10000) 10 bump_field bump_field 4).
  apply Qle_bool_iff. vm_compute. reflexivity.
Defined.

Example receivers_form_forest_ridge :
  downstream (flow__receiver_node (FlowRouter_route grid_5x5 ridge_field)) 3 12
  <> 12%nat.
Proof.
  apply (receivers_form_forest grid_5x5 ridge_field).
  vm_compute. discriminate.
Defined.

Example single_outlet_holds_domain_area :
  at_ (drainage_area (FlowRouter_route single_outlet_grid bump_field)) 1
  == total_domain_area single_outlet_grid.
Proof.
  apply (outlets_hold_domain_area single_outlet_grid bump_field).
  - vm_compute. lia.
  - reflexivity.
  - intros v Hv.
    do 9 (destruct v as [|v];
          [vm_compute; intros; try reflexivity; congruence|]).
    vm_compute in Hv. lia.
Defined.

Example flat_start_first_pass_5x5 :
  (forall v, (v < 25)%nat ->
     at_ (topographic__elevation
            (run_steps reference grid_5x5 scenario_settings 1
                       (initial_model (flat_field 25 100)))) v
     == if is_core grid_5x5 v then 100 + uplift_per_step scenario_settings
        else 100) /\
  (forall k v, status grid_5x5 v <> BC_NODE_IS_CORE ->
     at_ (topographic__elevation
            (run_steps reference grid_5x5 scenario_settings k
                       (initial_model (flat_field 25 100)))) v
     == at_ (flat_field 25 100) v).
Proof.
  apply (flat_start_first_pass reference grid_5x5 scenario_settings 100
           (initial_model (flat_field 25 100))).
  - intros z. apply DiffusionSolver_step_length.
  - intros z v Hnc.
    rewrite (DiffusionSolver_step_keeps_boundary grid_5x5 _ _ z v Hnc).
    reflexivity.
  - intros z Hlen Hz. apply DiffusionSolver_step_flat; auto.
    + vm_compute; discriminate.
    + apply dtQ_nonneg.
  - intros ff z.
    change (arr_eq (FluvialSolver_step example_kernel grid_5x5 0 (1 # 2) 1 0
                      (dtQ scenario_settings) ff z) z).
    rewrite FluvialSolver_step_K0.
    + split; [reflexivity|intros v; reflexivity].
    + reflexivity.
    + apply Qle_refl.
  - reflexivity.
  - apply flat_field_flat.
Defined.

Example reported_rate_full_window :
  reported_rate reference grid_3x3 full_window_settings 1000
                (initial_model (flat_field 9 0)) 4
  == window_average reference grid_3x3 full_window_settings 1000
                    (flat_field 9 0) 4.
Proof.
  apply (reported_rate_is_scaled_window_sum reference grid_3x3
           full_window_settings 1000 (initial_model (flat_field 9 0)) 4).
  - intros z. apply reference_diffuser_length.
  - intros ff z. apply reference_eroder_length.
  - reflexivity.
  - reflexivity.
  - apply Qeq_bool_iff. vm_compute. reflexivity.
Defined.

Example ledger_first_window_pass :
  at_ (erode_dep (run_steps reference grid_3x3 short_window_settings 902
                    (reset_total (initial_model (flat_field 9 0))))) 4
  == at_ (elevation_at_pass reference grid_3x3 short_window_settings 901
            (flat_field 9 0)) 4
     - at_ (after_processes reference grid_3x3 short_window_settings
              (elevation_at_pass reference grid_3x3 short_window_settings 901
                 (flat_field 9 0))) 4.
Proof.
  destruct (ledger_counts_erosion_positive reference grid_3x3
              short_window_settings 901 (initial_model (flat_field 9 0)) 4)
    as (Hpass & _).
  - intros z. apply reference_diffuser_length.
  - intros ff z. apply reference_eroder_length.
  - reflexivity.
  - reflexivity.
  - exact (Hpass 901%nat (Nat.lt_succ_diag_r 900)).
Defined.

(** C2, as stated, fails: in the scenario the centre node does not end
    0.005 above its start.  From the second pass on the diffuser lowers the
    raised CORE nodes toward the FIXED_VALUE edges, so the centre is not at
    +0.005 after five passes either; and the loop runs the uplift six times
    for the declared five steps: without diffusion the rise is six
    uplifts. *)
Lemma scenario_rise_is_not_five_uplifts :
  let m0 := initial_model (flat_field 25 100) in
  nt scenario_settings = Some 5%nat /\
  exists mf mf',
    run_model reference grid_5x5 scenario_settings m0 = Some mf /\
    ~ at_ (topographic__elevation mf) 12 == 100 + 5 * (1 # 1000) /\
    ~ at_ (topographic__elevation
             (run_steps reference grid_5x5 scenario_settings 5 m0)) 12
      == 100 + 5 * (1 # 1000) /\
    length (filter (call_eqb Uplift) (history mf)) = 6%nat /\
    run_model reference grid_5x5 scenario_without_diffusion m0 = Some mf' /\
    at_ (topographic__elevation mf') 12 == 100 + 6 * (1 # 1000).
Proof.
  cbv zeta. split; [reflexivity|].
  eexists. eexists.
  split; [reflexivity|].
  split; [apply Qeq_bool_neq; vm_compute; reflexivity|].
  split; [apply Qeq_bool_neq; vm_compute; reflexivity|].
  split; [vm_compute; reflexivity|].
  split; [reflexivity|].
  apply Qeq_bool_iff. vm_compute. reflexivity.
Qed.

(** C3, as stated, fails outside the script's own duration: with the loop
    bound 901 the window is one pass of 10 years, yet the reported rate is
    the windowed change times 0.001, not divided by 10. *)
Lemma reported_rate_is_not_window_average :
  let m0 := initial_model (flat_field 9 0) in
  nt short_window_settings = Some 901%nat /\
  window 901 = [901%nat] /\
  window_duration short_window_settings 901 == 10 /\
  ~ reported_rate reference grid_3x3 short_window_settings 901 m0 4
    == window_average reference grid_3x3 short_window_settings 901
                      (flat_field 9 0) 4.
Proof.
  cbv zeta. split; [vm_compute; reflexivity|].
  split; [vm_compute; reflexivity|].
  split; [apply Qeq_bool_iff; vm_compute; reflexivity|].
  apply Qeq_bool_neq. vm_compute. reflexivity.
Qed.

(** * Further properties of the script *)

(** ** Boundary setup, beyond the corners *)

Lemma left_edge_bound (mg : RasterModelGrid) (v : nat) :
  (0 < number_of_node_columns mg)%nat ->
  In v (nodes_at_left_edge mg) -> (v < number_of_nodes mg)%nat.
Proof.
  unfold nodes_at_left_edge, number_of_nodes. intros Hc H.
  apply in_map_iff in H. destruct H as (r & <- & Hr). apply in_seq in Hr. nia.
Qed.

Lemma right_edge_bound (mg : RasterModelGrid) (v : nat) :
  (0 < number_of_node_columns mg)%nat ->
  In v (nodes_at_right_edge mg) -> (v < number_of_nodes mg)%nat.
Proof.
  unfold nodes_at_right_edge, number_of_nodes. intros Hc H.
  apply in_map_iff in H. destruct H as (r & <- & Hr). apply in_seq in Hr. nia.
Qed.

Lemma top_edge_bound (mg : RasterModelGrid) (v : nat) :
  (0 < number_of_node_rows mg)%nat ->
  In v (nodes_at_top_edge mg) -> (v < number_of_nodes mg)%nat.
Proof.
  unfold nodes_at_top_edge, number_of_nodes. intros Hr H.
  apply in_seq in H. nia.
Qed.

Lemma bottom_edge_bound (mg : RasterModelGrid) (v : nat) :
  (0 < number_of_node_rows mg)%nat ->
  In v (nodes_at_bottom_edge mg) -> (v < number_of_nodes mg)%nat.
Proof.
  unfold nodes_at_bottom_edge, number_of_nodes. intros Hr H.
  apply in_seq in H. nia.
Qed.

Lemma fixed_after_fixing (st : list NodeStatus) (t b : list nat) (c : nat) :
  (c < length st)%nat -> In c t \/ In c b ->
  nth c (assign_at b BC_NODE_IS_FIXED_VALUE
           (assign_at t BC_NODE_IS_FIXED_VALUE st))
      BC_NODE_IS_CLOSED = BC_NODE_IS_FIXED_VALUE.
Proof.
  intros Hlt H.
  destruct (in_dec Nat.eq_dec c b) as [Hb|Hb].
  - apply nth_assign_at_in; auto. rewrite assign_at_length; exact Hlt.
  - rewrite nth_assign_at_notin by exact Hb.
    destruct H as [H|H]; [|contradiction].
    apply nth_assign_at_in; auto.
Qed.

(** What the setup leaves at a node, by the edges the node lies on. *)
Lemma status_after_setup (mg : RasterModelGrid) (v : nat) :
  (0 < number_of_node_rows mg)%nat ->
  (0 < number_of_node_columns mg)%nat ->
  length (status_at_node mg) = number_of_nodes mg ->
  status (set_boundary_status mg) v =
    if in_dec Nat.eq_dec v (nodes_at_left_edge mg ++ nodes_at_right_edge mg)
    then BC_NODE_IS_CLOSED
    else if in_dec Nat.eq_dec v
              (nodes_at_top_edge mg ++ nodes_at_bottom_edge mg)
         then BC_NODE_IS_FIXED_VALUE
         else status mg v.
Proof.
  intros Hr Hc Hlen. unfold status, set_boundary_status; simpl.
  destruct (in_dec Nat.eq_dec v _) as [Hside|Hside].
  - apply in_app_or in Hside. apply closed_after_closing; [|exact Hside].
    rewrite !assign_at_length, Hlen.
    destruct Hside; [apply left_edge_bound|apply right_edge_bound]; auto.
  - rewrite !nth_assign_at_notin
      by (intros F; apply Hside; apply in_or_app; auto).
    destruct (in_dec Nat.eq_dec v _) as [Hns|Hns].
    + apply in_app_or in Hns. apply fixed_after_fixing; [|exact Hns].
      rewrite Hlen.
      destruct Hns; [apply top_edge_bound|apply bottom_edge_bound]; auto.
    + rewrite !nth_assign_at_notin
        by (intros F; apply Hns; apply in_or_app; auto).
      reflexivity.
Qed.

(** X1. After the setup every node of the left and of the right edge is
    CLOSED, whatever its status was and whether or not it also lies on the
    top or bottom edge. *)
Theorem side_edges_closed_after_setup (mg : RasterModelGrid) (v : nat) :
  (0 < number_of_node_rows mg)%nat ->
  (0 < number_of_node_columns mg)%nat ->
  length (status_at_node mg) = number_of_nodes mg ->
  In v (nodes_at_left_edge mg) \/ In v (nodes_at_right_edge mg) ->
  status (set_boundary_status mg) v = BC_NODE_IS_CLOSED.
Proof.
  intros Hr Hc Hlen Hside. rewrite status_after_setup by assumption.
  destruct (in_dec Nat.eq_dec v _) as [_|Hn]; [reflexivity|].
  exfalso. apply Hn. apply in_or_app. exact Hside.
Qed.

(** X2. After the setup every node of the top and of the bottom edge that is
    not on the left or right edge is FIXED_VALUE. *)
Theorem top_bottom_edges_fixed_after_setup (mg : RasterModelGrid) (v : nat) :
  (0 < number_of_node_rows mg)%nat ->
  (0 < number_of_node_columns mg)%nat ->
  length (status_at_node mg) = number_of_nodes mg ->
  In v (nodes_at_top_edge mg) \/ In v (nodes_at_bottom_edge mg) ->
  ~ In v (nodes_at_left_edge mg) -> ~ In v (nodes_at_right_edge mg) ->
  status (set_boundary_status mg) v = BC_NODE_IS_FIXED_VALUE.
Proof.
  intros Hr Hc Hlen Hns Hl Hrt. rewrite status_after_setup by assumption.
  destruct (in_dec Nat.eq_dec v _) as [Hside|_].
  - apply in_app_or in Hside. destruct Hside; contradiction.
  - destruct (in_dec Nat.eq_dec v _) as [_|Hn]; [reflexivity|].
    exfalso. apply Hn. apply in_or_app. exact Hns.
Qed.

(** X3. The setup changes nothing but the status of edge nodes: a node on
    none of the four edges keeps the status it had, and the shape, the
    spacing and the number of status entries stay as they were. *)
Theorem interior_untouched_by_setup (mg : RasterModelGrid) (v : nat) :
  ~ In v (nodes_at_top_edge mg) -> ~ In v (nodes_at_bottom_edge mg) ->
  ~ In v (nodes_at_left_edge mg) -> ~ In v (nodes_at_right_edge mg) ->
  status (set_boundary_status mg) v = status mg v /\
  length (status_at_node (set_boundary_status mg))
    = length (status_at_node mg) /\
  number_of_node_rows (set_boundary_status mg) = number_of_node_rows mg /\
  number_of_node_columns (set_boundary_status mg) = number_of_node_columns mg /\
  grid_dx (set_boundary_status mg) = grid_dx mg.
Proof.
  intros Ht Hb Hl Hr. split; [|split; [|repeat split]].
  - unfold status, set_boundary_status; simpl.
    rewrite !nth_assign_at_notin by assumption. reflexivity.
  - unfold set_boundary_status; simpl. rewrite !assign_at_length. reflexivity.
Qed.

(** X4. The nodes the setup writes twice, FIXED_VALUE first and CLOSED
    afterwards, are exactly the four corners: a node lies on a top or bottom
    edge and on a left or right edge if and only if it is a corner. *)
Theorem written_twice_iff_corner (mg : RasterModelGrid) (v : nat) :
  (0 < number_of_node_rows mg)%nat ->
  (0 < number_of_node_columns mg)%nat ->
  ((In v (nodes_at_top_edge mg) \/ In v (nodes_at_bottom_edge mg)) /\
   (In v (nodes_at_left_edge mg) \/ In v (nodes_at_right_edge mg)))
  <-> In v (corner_nodes mg).
Proof.
  intros Hr Hc. split.
  - unfold corner_nodes, nodes_at_top_edge, nodes_at_bottom_edge,
      nodes_at_left_edge, nodes_at_right_edge.
    set (nr := number_of_node_rows mg) in *.
    set (nc := number_of_node_columns mg) in *.
    intros [Hns Hew].
    assert (Hside : exists r, (r < nr)%nat /\
              (v = r * nc \/ v = r * nc + (nc - 1))%nat).
    { destruct Hew as [H|H]; apply in_map_iff in H;
        destruct H as (r & <- & Hin); apply in_seq in Hin;
        exists r; split; auto; lia. }
    destruct Hside as (r & Hrlt & Hv).
    destruct Hns as [Ht|Hb].
    + apply in_seq in Ht.
      assert (r = nr - 1)%nat by nia. subst r.
      destruct Hv as [->| ->]; simpl.
      * right; right; left; reflexivity.
      * right; right; right; left. nia.
    + apply in_seq in Hb.
      assert (r = 0)%nat by nia. subst r.
      destruct Hv as [->| ->]; simpl.
      * left; reflexivity.
      * right; left; reflexivity.
  - intros H. destruct (corner_in_edges mg v Hr Hc H) as (Hns & Hew & _).
    split; assumption.
Qed.

Lemma empty_if_no_member {A : Type} (l : list A) :
  (forall x, ~ In x l) -> l = [].
Proof.
  destruct l as [|x l]; [reflexivity|].
  intros H. exfalso. apply (H x). left; reflexivity.
Qed.

(** X5. On a grid of one or two columns the setup closes every node: no
    CORE node is left, [mg.core_nodes] is empty and the uplift of line 145
    changes no elevation. *)
Theorem narrow_grid_is_all_closed (mg : RasterModelGrid) (s : Settings)
    (m : Model) :
  (0 < number_of_node_rows mg)%nat ->
  (0 < number_of_node_columns mg <= 2)%nat ->
  length (status_at_node mg) = number_of_nodes mg ->
  (forall v, status (set_boundary_status mg) v = BC_NODE_IS_CLOSED) /\
  core_nodes (set_boundary_status mg) = [] /\
  topographic__elevation (uplift (set_boundary_status mg) s m)
    = topographic__elevation m.
Proof.
  intros Hr Hc Hlen.
  assert (Hall : forall v, status (set_boundary_status mg) v = BC_NODE_IS_CLOSED).
  { intros v.
    destruct (Nat.lt_ge_cases v (number_of_nodes mg)) as [Hlt|Hge].
    - rewrite status_after_setup by (auto; lia).
      destruct (in_dec Nat.eq_dec v _) as [_|Hn]; [reflexivity|].
      exfalso. apply Hn. apply in_or_app.
      unfold nodes_at_left_edge, nodes_at_right_edge, number_of_nodes in *.
      set (nr := number_of_node_rows mg) in *.
      set (nc := number_of_node_columns mg) in *.
      assert (Hnc : nc <> 0%nat) by lia.
      pose proof (Nat.div_mod_eq v nc) as Hdm.
      pose proof (Nat.mod_upper_bound v nc Hnc) as Hmod.
      assert (Hq : (v / nc < nr)%nat)
        by (apply Nat.Div0.div_lt_upper_bound; lia).
      destruct (Nat.eq_dec (v mod nc) 0) as [H0|H0].
      + left. apply in_map_iff. exists (v / nc)%nat.
        split; [lia|apply in_seq; lia].
      + right. apply in_map_iff. exists (v / nc)%nat.
        split; [lia|apply in_seq; lia].
    - unfold status. apply nth_overflow.
      unfold set_boundary_status; simpl.
      rewrite !assign_at_length, Hlen. exact Hge. }
  assert (Hcore : core_nodes (set_boundary_status mg) = []).
  { apply empty_if_no_member. intros v Hv.
    apply in_core_nodes in Hv. rewrite Hall in Hv. discriminate. }
  split; [exact Hall|]. split; [exact Hcore|].
  cbn [uplift topographic__elevation]. rewrite Hcore. reflexivity.
Qed.

(** ** How long the loop runs *)

Lemma count_calls_app (a : Call) (l1 l2 : list Call) :
  count_calls a (l1 ++ l2) = (count_calls a l1 + count_calls a l2)%nat.
Proof. unfold count_calls. rewrite filter_app, length_app. reflexivity. Qed.

Lemma count_calls_pass (a : Call) (i : nat) :
  count_calls a (pass_calls i) =
    match a with
    | LedgerOpen | LedgerClose => if (900 <? i)%nat then 1%nat else 0%nat
    | _ => 1%nat
    end.
Proof.
  unfold pass_calls. destruct (900 <? i)%nat; destruct a; reflexivity.
Qed.

Lemma count_calls_passes (a : Call) (k : nat) :
  count_calls a (flat_map pass_calls (seq 0 k)) =
    match a with
    | LedgerOpen | LedgerClose => (k - 901)%nat
    | _ => k
    end.
Proof.
  induction k as [|k IH]; [destruct a; reflexivity|].
  rewrite seq_S, flat_map_app, count_calls_app, IH. cbn [flat_map Nat.add].
  rewrite app_nil_r, count_calls_pass.
  destruct a; destruct (Nat.ltb_spec 900 k); lia.
Qed.

(** X6. A run with loop bound [n] executes the diffuser, the flow
    accumulator, the eroder and the uplift [n + 1] times each, and the two
    halves of the ledger bookkeeping [n - 900] times each (not at all when
    [n <= 900]). *)
Theorem calls_in_one_run (C : Components) (mg : RasterModelGrid)
    (s : Settings) (n : nat) (m : Model) (a : Call) :
  count_calls a (history (simulation C mg s n m))
  = (count_calls a (history m) + calls_per_run n a)%nat.
Proof.
  unfold simulation. cbn [scale_total history].
  rewrite run_steps_history, count_calls_app, count_calls_passes.
  cbn [reset_total history]. unfold calls_per_run. destruct a; lia.
Qed.

(** X7. Section G runs if and only if [dt] is not zero.  Then the loop bound
    is the whole number of steps that fit into [total_t], and since the
    loop makes one pass more than that, the passes cover strictly more
    simulated time than [total_t]. *)
Theorem run_model_passes (C : Components) (mg : RasterModelGrid)
    (s : Settings) (m : Model) :
  (dt s = 0%nat -> run_model C mg s m = None) /\
  (dt s <> 0%nat ->
     exists n,
       nt s = Some n /\
       run_model C mg s m = Some (simulation C mg s n m) /\
       (n * dt s <= total_t s < (n + 1) * dt s)%nat /\
       count_calls Uplift (history (simulation C mg s n m))
       = (count_calls Uplift (history m) + (n + 1))%nat).
Proof.
  unfold run_model, nt. split.
  - intros ->. reflexivity.
  - intros Hdt. destruct (Nat.eqb_spec (dt s) 0) as [E|_]; [contradiction|].
    exists (total_t s / dt s)%nat.
    split; [reflexivity|]. split; [reflexivity|]. split.
    + pose proof (Nat.div_mod_eq (total_t s) (dt s)) as Hdm.
      pose proof (Nat.mod_upper_bound (total_t s) (dt s) Hdt) as Hmod.
      nia.
    + unfold simulation. cbn [scale_total history].
      rewrite run_steps_history, count_calls_app, count_calls_passes.
      reflexivity.
Qed.

(** ** The ledger and the elevation *)

(** X8. The ledger never feeds back: the elevation and the flow fields a
    run ends with depend on the elevation it starts from, not on what the
    two ledger fields or the flow fields held before. *)
Theorem ledger_never_feeds_back (C : Components) (mg : RasterModelGrid)
    (s : Settings) (n : nat) (m m' : Model) :
  topographic__elevation m = topographic__elevation m' ->
  topographic__elevation (simulation C mg s n m)
    = topographic__elevation (simulation C mg s n m') /\
  flow (simulation C mg s n m) = flow (simulation C mg s n m') /\
  topographic__elevation (simulation C mg s n m)
    = elevation_at_pass C mg s (n + 1) (topographic__elevation m).
Proof.
  intros Hz. unfold simulation. cbn [scale_total topographic__elevation flow].
  rewrite !run_steps_elevation. cbn [reset_total topographic__elevation].
  rewrite Hz. split; [reflexivity|]. split; [|reflexivity].
  rewrite Nat.add_1_r, !run_steps_S, !loop_body_flow, !run_steps_elevation.
  cbn [reset_total topographic__elevation]. rewrite Hz. reflexivity.
Qed.

(** X9. Running section G again gives a map that owes nothing to the
    previous run: two models with the same elevation report the same rate
    at every node, whatever their ledger fields held. *)
Theorem rerun_reports_afresh (C : Components) (mg : RasterModelGrid)
    (s : Settings) (n : nat) (m m' : Model) (v : nat) :
  (forall z, length (LinearDiffuser C mg (D s) (dtQ s) z) = length z) ->
  (forall ff z,
     length (FastscapeEroder C mg (Ksp s) (1 # 2) 1 (threshold s) (dtQ s) ff z)
     = length z) ->
  length (erode_dep m) = length (topographic__elevation m) ->
  length (t_erode_dep m) = length (topographic__elevation m) ->
  length (erode_dep m') = length (topographic__elevation m') ->
  length (t_erode_dep m') = length (topographic__elevation m') ->
  topographic__elevation m = topographic__elevation m' ->
  reported_rate C mg s n m v == reported_rate C mg s n m' v.
Proof.
  intros Hd He Hle Hlt Hle' Hlt' Hz.
  unfold reported_rate, simulation. cbn [scale_total t_erode_dep].
  rewrite !at_scale.
  rewrite (total_before_scaling C mg s n m v Hd He Hle Hlt).
  rewrite (total_before_scaling C mg s n m' v Hd He Hle' Hlt').
  rewrite Hz. reflexivity.
Qed.

Lemma early_passes_skip_ledger (C : Components) (mg : RasterModelGrid)
    (s : Settings) (k : nat) (m : Model) :
  (k <= 901)%nat ->
  erode_dep (run_steps C mg s k m) = erode_dep m /\
  t_erode_dep (run_steps C mg s k m) = t_erode_dep m.
Proof.
  induction k as [|k IH]; intros Hk; [split; reflexivity|].
  rewrite run_steps_S. destruct IH as [IHe IHt]; [lia|].
  unfold loop_body. destruct (Nat.ltb_spec 900 k) as [Hlt|_]; [lia|].
  cbn [uplift erode_run_one_step fr_run_one_step lin_diffuse_run_one_step
       erode_dep t_erode_dep].
  split; assumption.
Qed.

(** X10. A run whose loop bound does not exceed 900 never reaches the
    window: it reports a rate of zero at every node and leaves [erode_dep]
    as it found it. *)
Theorem short_run_reports_nothing (C : Components) (mg : RasterModelGrid)
    (s : Settings) (n : nat) (m : Model) :
  (n <= 900)%nat ->
  (forall v, reported_rate C mg s n m v == 0) /\
  erode_dep (simulation C mg s n m) = erode_dep m /\
  window n = [].
Proof.
  intros Hn.
  destruct (early_passes_skip_ledger C mg s (n + 1) (reset_total m)) as [He Ht];
    [lia|].
  split; [|split].
  - intros v. unfold reported_rate, simulation. cbn [scale_total t_erode_dep].
    rewrite at_scale, Ht, reset_total_zero. ring.
  - unfold simulation. cbn [scale_total erode_dep]. rewrite He. reflexivity.
  - apply length_zero_iff_nil. rewrite window_length. lia.
Qed.

(** ** Elevation balance *)

Lemma QofNat_S (k : nat) : QofNat (S k) == QofNat k + 1.
Proof.
  unfold QofNat.
  assert (E : Z.of_nat (S k) = (Z.of_nat k + 1)%Z) by lia.
  rewrite E, inject_Z_plus. reflexivity.
Qed.

Lemma window_is_seq_upto (k : nat) :
  filter (fun i => (900 <? i)%nat) (seq 0 k) = seq 901 (k - 901).
Proof.
  induction k as [|k IH]; [reflexivity|].
  rewrite filter_seq_S, IH.
  destruct (Nat.ltb_spec 900 k) as [Hlt|Hge].
  - replace (S k - 901)%nat with (S (k - 901)) by lia.
    rewrite seq_S. replace (901 + (k - 901))%nat with k by lia. reflexivity.
  - replace (S k - 901)%nat with 0%nat by lia.
    replace (k - 901)%nat with 0%nat by lia. reflexivity.
Qed.

Section Balance.

Variable C : Components.
Variable mg : RasterModelGrid.
Variable s : Settings.

Hypothesis diffuser_length : forall z,
  length (LinearDiffuser C mg (D s) (dtQ s) z) = length z.
Hypothesis eroder_length : forall ff z,
  length (FastscapeEroder C mg (Ksp s) (1 # 2) 1 (threshold s) (dtQ s) ff z)
  = length z.

(** One pass: the new elevation is the old one, less the change the ledger
    would record, plus the uplift of the node. *)
Lemma elevation_after_pass (z0 : array) (k v : nat) :
  length (status_at_node mg) = length z0 ->
  at_ (elevation_at_pass C mg s (S k) z0) v
  == at_ (elevation_at_pass C mg s k z0) v - step_change C mg s z0 k v
     + uplift_at mg s v.
Proof.
  intros Hst. cbn [elevation_at_pass]. unfold next_elevation, step_change, uplift_at.
  set (zk := elevation_at_pass C mg s k z0).
  destruct (is_core mg v) eqn:Hc.
  - rewrite at_add_at_in.
    + ring.
    + apply core_nodes_NoDup.
    + apply in_core_nodes, is_core_status; exact Hc.
    + rewrite (after_processes_length C mg s diffuser_length eroder_length).
      unfold zk.
      rewrite (elevation_at_pass_length C mg s diffuser_length eroder_length).
      rewrite <- Hst. apply is_core_status in Hc.
      destruct (Nat.lt_ge_cases v (length (status_at_node mg))) as [Hlt|Hge]; auto.
      unfold status in Hc. rewrite nth_overflow in Hc by exact Hge. discriminate.
  - rewrite at_add_at_notin.
    + ring.
    + rewrite in_core_nodes, <- is_core_status. congruence.
Qed.

Lemma elevation_over_passes (z0 : array) (j k v : nat) :
  length (status_at_node mg) = length z0 ->
  at_ (elevation_at_pass C mg s (j + k) z0) v
  == at_ (elevation_at_pass C mg s j z0) v
     + QofNat k * uplift_at mg s v
     - sum_steps (fun i => step_change C mg s z0 i v) (seq j k).
Proof.
  intros Hst. induction k as [|k IH].
  - rewrite Nat.add_0_r. change (QofNat 0) with 0.
    unfold sum_steps. cbn [seq fold_right]. ring.
  - rewrite Nat.add_succ_r, elevation_after_pass by exact Hst.
    rewrite IH, seq_S, sum_steps_app, QofNat_S.
    set (S0 := sum_steps _ (seq j k)).
    unfold sum_steps. cbn [fold_right]. ring.
Qed.

End Balance.

(** X11. Elevation balance of a run: at every node the final elevation is
    the initial one, plus the uplift of [n + 1] passes where the node is
    CORE, minus the sum over all [n + 1] passes of the change (elevation
    before minus after the diffusion and fluvial updates) of the pass. *)
Theorem elevation_balance (C : Components) (mg : RasterModelGrid)
    (s : Settings) (n : nat) (m : Model) (v : nat) :
  (forall z, length (LinearDiffuser C mg (D s) (dtQ s) z) = length z) ->
  (forall ff z,
     length (FastscapeEroder C mg (Ksp s) (1 # 2) 1 (threshold s) (dtQ s) ff z)
     = length z) ->
  length (status_at_node mg) = length (topographic__elevation m) ->
  at_ (topographic__elevation (simulation C mg s n m)) v
  == at_ (topographic__elevation m) v
     + QofNat (n + 1) * uplift_at mg s v
     - sum_steps (fun i => step_change C mg s (topographic__elevation m) i v)
                 (seq 0 (n + 1)).
Proof.
  intros Hd He Hst. unfold simulation. cbn [scale_total topographic__elevation].
  rewrite run_steps_elevation. cbn [reset_total topographic__elevation].
  apply (elevation_over_passes C mg s Hd He (topographic__elevation m)
           0 (n + 1) v Hst).
Qed.

(** X12. How the reported map reads against the topography: for a loop
    bound of at least 900 the rate at a node is 0.001 times (the uplift the
    node received over the window passes, minus its net rise from the start
    of pass 901 to the end of the run). *)
Theorem reported_rate_against_topography (C : Components)
    (mg : RasterModelGrid) (s : Settings) (n : nat) (m : Model) (v : nat) :
  (forall z, length (LinearDiffuser C mg (D s) (dtQ s) z) = length z) ->
  (forall ff z,
     length (FastscapeEroder C mg (Ksp s) (1 # 2) 1 (threshold s) (dtQ s) ff z)
     = length z) ->
  length (erode_dep m) = length (topographic__elevation m) ->
  length (t_erode_dep m) = length (topographic__elevation m) ->
  length (status_at_node mg) = length (topographic__elevation m) ->
  (900 <= n)%nat ->
  reported_rate C mg s n m v
  == (1 # 1000)
     * (QofNat (n - 900) * uplift_at mg s v
        - (at_ (topographic__elevation (simulation C mg s n m)) v
           - at_ (elevation_at_pass C mg s 901 (topographic__elevation m)) v)).
Proof.
  intros Hd He Hle Hlt Hst Hn.
  unfold reported_rate, simulation.
  cbn [scale_total t_erode_dep topographic__elevation].
  rewrite at_scale, (total_before_scaling C mg s n m v Hd He Hle Hlt).
  rewrite run_steps_elevation. cbn [reset_total topographic__elevation].
  unfold window. rewrite window_is_seq_upto.
  replace (n + 1 - 901)%nat with (n - 900)%nat by lia.
  replace (n + 1)%nat with (901 + (n - 900))%nat at 1 by lia.
  rewrite (elevation_over_passes C mg s Hd He (topographic__elevation m)
             901 (n - 900) v Hst).
  ring.
Qed.

(** ** Edge nodes through a whole run *)

Lemma boundary_nodes_keep_elevation (C : Components) (mg : RasterModelGrid)
    (s : Settings) (v : nat) :
  (forall z u, status mg u <> BC_NODE_IS_CORE ->
     at_ (LinearDiffuser C mg (D s) (dtQ s) z) u == at_ z u) ->
  (forall ff z u, status mg u <> BC_NODE_IS_CORE ->
     at_ (FastscapeEroder C mg (Ksp s) (1 # 2) 1 (threshold s) (dtQ s) ff z) u
     == at_ z u) ->
  status mg v <> BC_NODE_IS_CORE ->
  forall k z0, at_ (elevation_at_pass C mg s k z0) v == at_ z0 v.
Proof.
  intros Hd He Hnc k z0. induction k as [|k IH]; [reflexivity|].
  cbn [elevation_at_pass]. unfold next_elevation, after_processes.
  rewrite at_add_at_notin by (rewrite in_core_nodes; exact Hnc).
  rewrite (He _ _ v Hnc), (Hd _ v Hnc). exact IH.
Qed.

(** X13. With the boundary setup of lines 60-63 in place, and components
    that leave the nodes that are not CORE alone, every node on one of the
    four edges ends a run of any length at the elevation it started with:
    the uplift never reaches it. *)
Theorem edge_nodes_keep_elevation (C : Components) (mg0 : RasterModelGrid)
    (s : Settings) (n : nat) (m : Model) (v : nat) :
  let mg := set_boundary_status mg0 in
  (0 < number_of_node_rows mg0)%nat ->
  (0 < number_of_node_columns mg0)%nat ->
  length (status_at_node mg0) = number_of_nodes mg0 ->
  (forall z u, status mg u <> BC_NODE_IS_CORE ->
     at_ (LinearDiffuser C mg (D s) (dtQ s) z) u == at_ z u) ->
  (forall ff z u, status mg u <> BC_NODE_IS_CORE ->
     at_ (FastscapeEroder C mg (Ksp s) (1 # 2) 1 (threshold s) (dtQ s) ff z) u
     == at_ z u) ->
  In v (nodes_at_top_edge mg0 ++ nodes_at_bottom_edge mg0
        ++ nodes_at_left_edge mg0 ++ nodes_at_right_edge mg0) ->
  status mg v <> BC_NODE_IS_CORE /\
  at_ (topographic__elevation (simulation C mg s n m)) v
  == at_ (topographic__elevation m) v.
Proof.
  intros mg Hr Hc Hlen Hd He Hin.
  assert (Hnc : status mg v <> BC_NODE_IS_CORE).
  { unfold mg. rewrite status_after_setup by assumption.
    destruct (in_dec Nat.eq_dec v _) as [_|Hside]; [discriminate|].
    destruct (in_dec Nat.eq_dec v _) as [_|Hns]; [discriminate|].
    exfalso. apply in_app_or in Hin. destruct Hin as [Hin|Hin].
    - apply Hns. apply in_or_app. left; exact Hin.
    - apply in_app_or in Hin. destruct Hin as [Hin|Hin].
      + apply Hns. apply in_or_app. right; exact Hin.
      + apply Hside. exact Hin. }
  split; [exact Hnc|].
  unfold simulation. cbn [scale_total topographic__elevation].
  rewrite run_steps_elevation. cbn [reset_total topographic__elevation].
  apply (boundary_nodes_keep_elevation C mg s v Hd He Hnc).
Qed.

(** ** The cross profile *)

Lemma rows_of_length (nr nc : nat) (u : array) :
  length (rows_of nr nc u) = nr.
Proof.
  revert u; induction nr as [|k IH]; intros u; simpl; [reflexivity|].
  rewrite IH; reflexivity.
Qed.

Lemma rows_of_cell (nr nc : nat) (u : array) (r c : nat) :
  (r < nr)%nat -> (c < nc)%nat ->
  nth c (nth r (rows_of nr nc u) []) 0 = nth (r * nc + c) u 0.
Proof.
  revert u r; induction nr as [|k IH]; intros u r Hr Hc; [lia|].
  cbn [rows_of]. destruct r as [|r]; cbn [nth].
  - rewrite nth_firstn. apply Nat.ltb_lt in Hc. rewrite Hc. reflexivity.
  - rewrite IH by lia. rewrite nth_skipn. f_equal. simpl. lia.
Qed.

(** X14. The N-S cross section drawn before and after the run is the middle
    column of the grid: it exists exactly when the elevation array holds one
    value per node and the grid has a column, has one point per row, and
    its point for row [r] is the elevation of node [r * ncols + ncols // 2];
    it starts on the bottom edge and ends on the top edge. *)
Theorem cross_profile_is_middle_column (mg : RasterModelGrid) (z : array) :
  let nr := number_of_node_rows mg in
  let nc := number_of_node_columns mg in
  (length z <> number_of_nodes mg \/ nc = 0%nat -> cross_profile mg z = None) /\
  (length z = number_of_nodes mg -> (0 < nc)%nat ->
     exists p,
       cross_profile mg z = Some p /\
       length p = nr /\
       (forall r, (r < nr)%nat -> nth r p 0 = at_ z (r * nc + nc / 2)) /\
       In (nc / 2)%nat (nodes_at_bottom_edge mg) /\
       In ((nr - 1) * nc + nc / 2)%nat (nodes_at_top_edge mg)).
Proof.
  cbv zeta. unfold cross_profile, node_vector_to_raster, raster_column.
  split.
  - intros [Hlen|Hnc].
    + apply Nat.eqb_neq in Hlen. rewrite Hlen. reflexivity.
    + rewrite Hnc. destruct (length z =? number_of_nodes mg)%nat; reflexivity.
  - intros Hlen Hnc.
    assert (Hmid : (number_of_node_columns mg / 2 < number_of_node_columns mg)%nat)
      by (apply Nat.div_lt; lia).
    rewrite Hlen, Nat.eqb_refl. apply Nat.ltb_lt in Hmid. rewrite Hmid.
    apply Nat.ltb_lt in Hmid.
    eexists. split; [reflexivity|]. split; [|split; [|split]].
    + rewrite length_map. apply rows_of_length.
    + intros r Hr.
      rewrite (nth_indep _ 0
                 ((fun row => nth (number_of_node_columns mg / 2) row 0) []))
        by (rewrite length_map, rows_of_length; exact Hr).
      rewrite (map_nth (fun row => nth (number_of_node_columns mg / 2) row 0)).
      apply rows_of_cell; assumption.
    + unfold nodes_at_bottom_edge. apply in_seq. lia.
    + unfold nodes_at_top_edge. apply in_seq. lia.
Qed.

(** ** Shape of the fields, and a run without processes *)

(** X15. A run never changes the size of a node field: with components that
    keep the length of the elevation array, the elevation and both ledger
    fields have after the run the length the elevation had before it. *)
Theorem fields_keep_their_length (C : Components) (mg : RasterModelGrid)
    (s : Settings) (n : nat) (m : Model) :
  (forall z, length (LinearDiffuser C mg (D s) (dtQ s) z) = length z) ->
  (forall ff z,
     length (FastscapeEroder C mg (Ksp s) (1 # 2) 1 (threshold s) (dtQ s) ff z)
     = length z) ->
  length (erode_dep m) = length (topographic__elevation m) ->
  length (t_erode_dep m) = length (topographic__elevation m) ->
  let mf := simulation C mg s n m in
  length (topographic__elevation mf) = length (topographic__elevation m) /\
  length (erode_dep mf) = length (topographic__elevation m) /\
  length (t_erode_dep mf) = length (topographic__elevation m).
Proof.
  intros Hd He Hle Hlt. cbv zeta. unfold simulation.
  cbn [scale_total topographic__elevation erode_dep t_erode_dep].
  destruct (run_steps_ledger C mg s Hd He (n + 1) (reset_total m))
    as (He' & Ht' & _).
  - exact Hle.
  - cbn [reset_total t_erode_dep topographic__elevation].
    unfold isub. rewrite map2_length; auto.
  - cbn [reset_total topographic__elevation] in He', Ht'.
    split; [|split].
    + rewrite run_steps_elevation. cbn [reset_total topographic__elevation].
      apply (elevation_at_pass_length C mg s Hd He).
    + exact He'.
    + unfold scale. rewrite length_map. exact Ht'.
Qed.

(** X16. When neither the diffuser nor the eroder changes the elevation, a
    run with loop bound [n] raises every CORE node by exactly [n + 1] times
    the uplift per step, leaves the other nodes where they were, and reports
    a rate of zero. *)
Theorem run_without_processes (C : Components) (mg : RasterModelGrid)
    (s : Settings) (n : nat) (m : Model) (v : nat) :
  (forall z, arr_eq (LinearDiffuser C mg (D s) (dtQ s) z) z) ->
  (forall ff z,
     arr_eq (FastscapeEroder C mg (Ksp s) (1 # 2) 1 (threshold s) (dtQ s) ff z)
            z) ->
  length (erode_dep m) = length (topographic__elevation m) ->
  length (t_erode_dep m) = length (topographic__elevation m) ->
  length (status_at_node mg) = length (topographic__elevation m) ->
  at_ (topographic__elevation (simulation C mg s n m)) v
    == at_ (topographic__elevation m) v + QofNat (n + 1) * uplift_at mg s v /\
  reported_rate C mg s n m v == 0.
Proof.
  intros Hid Heid Hle Hlt Hst.
  assert (Hd : forall z, length (LinearDiffuser C mg (D s) (dtQ s) z) = length z)
    by (intros z; apply (proj1 (Hid z))).
  assert (He : forall ff z,
            length (FastscapeEroder C mg (Ksp s) (1 # 2) 1 (threshold s)
                      (dtQ s) ff z) = length z)
    by (intros ff z; apply (proj1 (Heid ff z))).
  assert (Hzero : forall l,
            sum_steps (fun i => step_change C mg s (topographic__elevation m) i v) l
            == 0).
  { intros l. rewrite <- (sum_steps_zero l). apply sum_steps_ext.
    intros i _. unfold step_change, after_processes.
    rewrite (proj2 (Heid _ _) v), (proj2 (Hid _) v). ring. }
  split.
  - unfold simulation. cbn [scale_total topographic__elevation].
    rewrite run_steps_elevation. cbn [reset_total topographic__elevation].
    rewrite (elevation_over_passes C mg s Hd He (topographic__elevation m)
               0 (n + 1) v Hst).
    rewrite Hzero. cbn [elevation_at_pass]. ring.
  - unfold reported_rate, simulation. cbn [scale_total t_erode_dep].
    rewrite at_scale, (total_before_scaling C mg s n m v Hd He Hle Hlt), Hzero.
    ring.
Qed.

Lemma FluvialSolver_step_keeps_boundary (R : RealKernel) (mg : RasterModelGrid)
    (K m n thr dt : Q) (ff : FlowField) (z : array) (u : nat) :
  status mg u <> BC_NODE_IS_CORE ->
  at_ (FluvialSolver_step R mg K m n thr dt ff z) u = at_ z u.
Proof.
  intros Hnc. unfold FluvialSolver_step.
  generalize (rev (flow__upstream_node_order ff)) as l.
  intros l. generalize z at 2 3 as znew.
  induction l as [|v l IH]; intros znew; cbn [fold_left]; [reflexivity|].
  rewrite IH.
  destruct (Nat.eq_dec u v) as [->|Hne].
  - rewrite erode_node_skips; [reflexivity|].
    apply andb_false_iff. left.
    destruct (is_core mg v) eqn:Hc; [|reflexivity].
    apply is_core_status in Hc. contradiction.
  - apply erode_node_elsewhere. exact Hne.
Qed.

(** ** Worked examples for the further properties *)

Example side_edges_closed_5x5 :
  status (set_boundary_status (raster 5 5 1)) 10 = BC_NODE_IS_CLOSED.
Proof.
  apply (side_edges_closed_after_setup (raster 5 5 1) 10).
  - simpl; lia.
  - simpl; lia.
  - reflexivity.
  - left. simpl. lia.
Defined.

Example top_bottom_edges_fixed_5x5 :
  status (set_boundary_status (raster 5 5 1)) 2 = BC_NODE_IS_FIXED_VALUE.
Proof.
  apply (top_bottom_edges_fixed_after_setup (raster 5 5 1) 2).
  - simpl; lia.
  - simpl; lia.
  - reflexivity.
  - right. simpl. lia.
  - simpl. lia.
  - simpl. lia.
Defined.

Example interior_untouched_5x5 :
  status (set_boundary_status (raster 5 5 1)) 12 = status (raster 5 5 1) 12.
Proof.
  apply (interior_untouched_by_setup (raster 5 5 1) 12); simpl; lia.
Defined.

Example written_twice_5x5 :
  (In 24%nat (nodes_at_top_edge (raster 5 5 1))
   \/ In 24%nat (nodes_at_bottom_edge (raster 5 5 1))) /\
  (In 24%nat (nodes_at_left_edge (raster 5 5 1))
   \/ In 24%nat (nodes_at_right_edge (raster 5 5 1))).
Proof.
  apply (written_twice_iff_corner (raster 5 5 1) 24).
  - simpl; lia.
  - simpl; lia.
  - simpl. lia.
Defined.

Example narrow_grid_3x2 :
  core_nodes (set_boundary_status (raster 3 2 1)) = [].
Proof.
  apply (narrow_grid_is_all_closed (raster 3 2 1) scenario_settings
           (initial_model (flat_field 6 0))).
  - simpl; lia.
  - simpl; lia.
  - reflexivity.
Defined.

Example run_model_passes_scenario :
  exists n,
    nt scenario_settings = Some n /\
    run_model reference grid_5x5 scenario_settings
              (initial_model (flat_field 25 100))
    = Some (simulation reference grid_5x5 scenario_settings n
                       (initial_model (flat_field 25 100))) /\
    (n * dt scenario_settings <= total_t scenario_settings
     < (n + 1) * dt scenario_settings)%nat /\
    count_calls Uplift
      (history (simulation reference grid_5x5 scenario_settings n
                           (initial_model (flat_field 25 100))))
    = (count_calls Uplift (history (initial_model (flat_field 25 100)))
       + (n + 1))%nat.
Proof.
  apply (run_model_passes reference grid_5x5 scenario_settings
           (initial_model (flat_field 25 100))).
  discriminate.
Defined.

Example ledger_never_feeds_back_3x3 :
  topographic__elevation
    (simulation reference grid_3x3 scenario_settings 5
                (initial_model bump_field))
  = topographic__elevation
      (simulation reference grid_3x3 scenario_settings 5
                  (ledger_open (initial_model bump_field))).
Proof.
  exact (proj1 (ledger_never_feeds_back reference grid_3x3 scenario_settings 5
                  (initial_model bump_field)
                  (ledger_open (initial_model bump_field)) eq_refl)).
Defined.

Example rerun_reports_afresh_3x3 :
  reported_rate reference grid_3x3 short_window_settings 901
                (initial_model bump_field) 4
  == reported_rate reference grid_3x3 short_window_settings 901
                   (ledger_open (initial_model bump_field)) 4.
Proof.
  apply (rerun_reports_afresh reference grid_3x3 short_window_settings 901
           (initial_model bump_field)
           (ledger_open (initial_model bump_field)) 4).
  - intros z. apply reference_diffuser_length.
  - intros ff z. apply reference_eroder_length.
  - reflexivity.
  - reflexivity.
  - reflexivity.
  - reflexivity.
  - reflexivity.
Defined.

Example short_run_reports_nothing_5x5 :
  reported_rate reference grid_5x5 scenario_settings 5
                (initial_model (flat_field 25 100)) 12 == 0.
Proof.
  apply (short_run_reports_nothing reference grid_5x5 scenario_settings 5
           (initial_model (flat_field 25 100))).
  lia.
Defined.

Example elevation_balance_3x3 :
  at_ (topographic__elevation
         (simulation reference grid_3x3 short_window_settings 5
                     (initial_model bump_field))) 4
  == at_ (topographic__elevation (initial_model bump_field)) 4
     + QofNat (5 + 1) * uplift_at grid_3x3 short_window_settings 4
     - sum_steps
         (fun i => step_change reference grid_3x3 short_window_settings
                     (topographic__elevation (initial_model bump_field)) i 4)
         (seq 0 (5 + 1)).
Proof.
  apply (elevation_balance reference grid_3x3 short_window_settings 5
           (initial_model bump_field) 4).
  - intros z. apply reference_diffuser_length.
  - intros ff z. apply reference_eroder_length.
  - reflexivity.
Defined.

Example reported_rate_against_topography_3x3 :
  reported_rate reference grid_3x3 short_window_settings 901
                (initial_model (flat_field 9 0)) 4
  == (1 # 1000)
     * (QofNat (901 - 900) * uplift_at grid_3x3 short_window_settings 4
        - (at_ (topographic__elevation
                  (simulation reference grid_3x3 short_window_settings 901
                              (initial_model (flat_field 9 0)))) 4
           - at_ (elevation_at_pass reference grid_3x3 short_window_settings
                    901 (topographic__elevation
                           (initial_model (flat_field 9 0)))) 4)).
Proof.
  apply (reported_rate_against_topography reference grid_3x3
           short_window_settings 901 (initial_model (flat_field 9 0)) 4).
  - intros z. apply reference_diffuser_length.
  - intros ff z. apply reference_eroder_length.
  - reflexivity.
  - reflexivity.
  - reflexivity.
  - lia.
Defined.

Example edge_nodes_keep_elevation_5x5 :
  status (set_boundary_status (raster 5 5 1)) 2 <> BC_NODE_IS_CORE /\
  at_ (topographic__elevation
         (simulation reference (set_boundary_status (raster 5 5 1))
                     scenario_settings 5
                     (initial_model (flat_field 25 100)))) 2
  == at_ (topographic__elevation (initial_model (flat_field 25 100))) 2.
Proof.
  apply (edge_nodes_keep_elevation reference (raster 5 5 1) scenario_settings 5
           (initial_model (flat_field 25 100)) 2).
  - simpl; lia.
  - simpl; lia.
  - reflexivity.
  - intros z u Hnc.
    rewrite (DiffusionSolver_step_keeps_boundary _ _ _ z u Hnc). reflexivity.
  - intros ff z u Hnc. unfold reference, reference_components.
    cbn [FastscapeEroder].
    rewrite (FluvialSolver_step_keeps_boundary example_kernel _ _ _ _ _ _
               ff z u Hnc).
    reflexivity.
  - simpl. lia.
Defined.

Example cross_profile_3x3 :
  exists p,
    cross_profile grid_3x3 bump_field = Some p /\
    length p = number_of_node_rows grid_3x3 /\
    (forall r, (r < number_of_node_rows grid_3x3)%nat ->
       nth r p 0
       = at_ bump_field (r * number_of_node_columns grid_3x3
                         + number_of_node_columns grid_3x3 / 2)) /\
    In (number_of_node_columns grid_3x3 / 2)%nat
       (nodes_at_bottom_edge grid_3x3) /\
    In ((number_of_node_rows grid_3x3 - 1) * number_of_node_columns grid_3x3
        + number_of_node_columns grid_3x3 / 2)%nat
       (nodes_at_top_edge grid_3x3).
Proof.
  apply (cross_profile_is_middle_column grid_3x3 bump_field).
  - reflexivity.
  - simpl; lia.
Defined.

Example fields_keep_their_length_3x3 :
  length (topographic__elevation
            (simulation reference grid_3x3 scenario_settings 5
                        (initial_model bump_field)))
  = length (topographic__elevation (initial_model bump_field)).
Proof.
  apply (fields_keep_their_length reference grid_3x3 scenario_settings 5
           (initial_model bump_field)).
  - intros z. apply reference_diffuser_length.
  - intros ff z. apply reference_eroder_length.
  - reflexivity.
  - reflexivity.
Defined.

Example run_without_processes_5x5 :
  at_ (topographic__elevation
         (simulation inert_components grid_5x5 scenario_settings 5
                     (initial_model (flat_field 25 100)))) 12
  == at_ (topographic__elevation (initial_model (flat_field 25 100))) 12
     + QofNat (5 + 1) * uplift_at grid_5x5 scenario_settings 12 /\
  reported_rate inert_components grid_5x5 scenario_settings 5
                (initial_model (flat_field 25 100)) 12 == 0.
Proof.
  apply (run_without_processes inert_components grid_5x5 scenario_settings 5
           (initial_model (flat_field 25 100)) 12).
  - intros z. split; [reflexivity|intros v; reflexivity].
  - intros ff z. split; [reflexivity|intros v; reflexivity].
  - reflexivity.
  - reflexivity.
  - reflexivity.
Defined.
